(** * RPI-Central tools: the course converter and the academic-calendar scraper

    A shallow embedding of
    - [Tools/prepare_courses_for_ios.py] (module [Courses]) and
    - [Tools/rpi_academic_calendar_scraper.py] (module [Calendar]),
    with the properties of their specification stated over it.

    Python [str] values are lists of characters ([text]).  Characters are the
    code points below 256; the whitespace class, the digit class and [lower]
    are Python's on that range, [title] is Python's on the 7-bit range (the
    scraper applies it to tokens of ASCII letters).  Python [int] is [Z]. *)

From Stdlib Require Import ZArith List Bool Ascii String Lia.
From Stdlib Require Import DecimalString.
Import ListNotations.
Local Open Scope Z_scope.

(** ** Text *)

Module Text.

Definition text := list ascii.

(** A literal, written as a Rocq string. *)
Definition lit (s : string) : text := list_ascii_of_string s.

Definition code (c : ascii) : Z := Z.of_N (N_of_ascii c).
Definition chr (n : Z) : ascii := ascii_of_N (Z.to_N n).

Definition between (lo hi : Z) (c : ascii) : bool :=
  (lo <=? code c) && (code c <=? hi).

(** [str.isspace] / the regex class [\s] on code points below 256:
    TAB..CR, FS..US, SPACE, NEL and NBSP. *)
Definition is_space (c : ascii) : bool :=
  between 9 13 c || between 28 32 c || (code c =? 133) || (code c =? 160).

(** The regex class [\d]: below 256 the only decimal digits are 0..9. *)
Definition is_digit (c : ascii) : bool := between 48 57 c.

Definition is_upper (c : ascii) : bool := between 65 90 c.
Definition is_lower (c : ascii) : bool := between 97 122 c.

(** The regex class [[A-Za-z]]. *)
Definition is_alpha (c : ascii) : bool := is_upper c || is_lower c.

(** [str.lower] on one character: A..Z, and the capitals of the upper half
    (all of 192..222 but the multiplication sign 215). *)
Definition lower_char (c : ascii) : ascii :=
  if is_upper c then chr (code c + 32)
  else if between 192 222 c && negb (code c =? 215) then chr (code c + 32)
  else c.

Definition upper_char (c : ascii) : ascii :=
  if is_lower c then chr (code c - 32) else c.

Definition lower (s : text) : text := map lower_char s.

(** [str.title]: a letter that follows a letter is lower-cased, any other
    letter is capitalised, everything else is kept. *)
Fixpoint title_from (previous_is_cased : bool) (s : text) : text :=
  match s with
  | [] => []
  | c :: r =>
      (if previous_is_cased then lower_char c else upper_char c)
        :: title_from (is_alpha c) r
  end.

Definition title (s : text) : text := title_from false s.

Fixpoint drop_while (p : ascii -> bool) (s : text) : text :=
  match s with
  | [] => []
  | c :: r => if p c then drop_while p r else s
  end.

Fixpoint take_while (p : ascii -> bool) (s : text) : text :=
  match s with
  | [] => []
  | c :: r => if p c then c :: take_while p r else []
  end.

(** A run of [p] cannot go on into [rest]. *)
Definition stops (p : ascii -> bool) (rest : text) : bool :=
  match rest with
  | [] => true
  | c :: _ => negb (p c)
  end.

(** [str.strip()] with no argument. *)
Definition lstrip (s : text) : text := drop_while is_space s.
Definition rstrip (s : text) : text := rev (drop_while is_space (rev s)).
Definition strip (s : text) : text := rstrip (lstrip s).

Definition eqb (a b : text) : bool :=
  if list_eq_dec ascii_dec a b then true else false.

Fixpoint starts_with (p s : text) : bool :=
  match p, s with
  | [], _ => true
  | _ :: _, [] => false
  | a :: p', b :: s' => Ascii.eqb a b && starts_with p' s'
  end.

(** [needle in hay] for strings. *)
Fixpoint contains (needle hay : text) : bool :=
  starts_with needle hay ||
  match hay with
  | [] => false
  | _ :: r => contains needle r
  end.

(** [" ".join(parts)] *)
Fixpoint join (sep : text) (parts : list text) : text :=
  match parts with
  | [] => []
  | [p] => p
  | p :: rest => p ++ sep ++ join sep rest
  end.

(** [str(n)] for an [int]. *)
Definition decimal (n : Z) : text :=
  list_ascii_of_string (NilEmpty.string_of_int (Z.to_int n)).

Definition zero_pad (width : nat) (s : text) : text :=
  repeat "0"%char (width - List.length s) ++ s.

(** The format spec [0<width>d]: the sign counts in the width and the
    zeros go after it. *)
Definition format_0d (width : nat) (n : Z) : text :=
  if n <? 0 then "-"%char :: zero_pad (width - 1) (decimal (- n))
  else zero_pad width (decimal n).

(** [int(s)] on a string of the digits 0..9. *)
Definition int_of_digits (s : text) : Z :=
  fold_left (fun acc c => 10 * acc + (code c - 48)) s 0.

(** The character of one decimal digit. *)
Definition digit_char (d : Z) : ascii := chr (48 + d).

(** The order of [str] values: code point by code point, a proper prefix
    first. *)
Fixpoint compare (a b : text) : comparison :=
  match a, b with
  | [], [] => Eq
  | [], _ :: _ => Lt
  | _ :: _, [] => Gt
  | x :: a', y :: b' =>
      match code x ?= code y with
      | Eq => compare a' b'
      | c => c
      end
  end.

(** Text whose only white space is single spaces: every white-space
    character is a space and none follows another ([after_space] tells
    that the character before was one). *)
Fixpoint spaced_from (after_space : bool) (s : text) : bool :=
  match s with
  | [] => true
  | c :: r =>
      if is_space c
      then Ascii.eqb c " "%char && negb after_space && spaced_from true r
      else spaced_from false r
  end.

(** The four decimal digits of a number below 10000. *)
Definition four_digits (n : Z) : text :=
  [digit_char (n / 1000); digit_char (n / 100 mod 10);
   digit_char (n / 10 mod 10); digit_char (n mod 10)].

(** The two decimal digits of a number below 100. *)
Definition two_digits (n : Z) : text :=
  [digit_char (n / 10); digit_char (n mod 10)].

End Text.

Import Text.

(** ** The course converter *)

Module Courses.

(** [military_to_str(t)]; [None] is Python's [None]. *)
Definition military_to_str (t : option Z) : text :=
  match t with
  | None => []
  | Some t =>
      if t <? 0 then []
      else
        let h := t / 100 in
        let m := t mod 100 in
        format_0d 2 h ++ ":"%char :: format_0d 2 m
  end.

(** *** Input: the two QuACS files, as [json.load] returns them.

    A field is an [option]: [None] is a key that is absent.  Fields hold
    values of the JSON type the converter expects (it calls [.strip()] on
    strings and iterates lists). *)

Record CatalogItem := {
  ci_subj : option text;
  ci_crse : option text;
  ci_name : option text;
  ci_description : option text
}.

(** [catalog.json]: a mapping, iterated in file order by [catalog.items()]. *)
Definition Catalog := list (text * CatalogItem).

Record Timeslot := {
  ts_days : option (list text);
  (** [Some None] is a JSON [null], which [military_to_str] accepts. *)
  ts_timeStart : option (option Z);
  ts_timeEnd : option (option Z);
  ts_location : option text
}.

Record SisSection := {
  ss_crn : option Z;
  ss_section : option text;
  ss_instructor : option text;
  ss_timeslots : option (list Timeslot)
}.

Record SisCourse := {
  sc_subj : option text;
  sc_crse : option text;
  sc_name : option text;
  sc_sections : option (list SisSection)
}.

Record School := { sch_courses : option (list SisCourse) }.

(** *** Output records *)

Record Meeting := {
  m_days : list text;
  m_start : text;
  m_end : text;
  m_location : text
}.

Record Section := {
  s_crn : option Z;
  s_section : text;
  s_instructor : text;
  s_meetings : list Meeting
}.

Record Course := {
  subject : text;
  number : text;
  title : text;
  description : text;
  sections : list Section
}.

(** [d.get(k, default)] on an optional field. *)
Definition get {A} (field : option A) (default : A) : A :=
  match field with
  | Some v => v
  | None => default
  end.

(** [x or default] for a string or list that may be [None]. *)
Definition or_else {A} (x : option (list A)) (default : list A) : list A :=
  match x with
  | Some ((_ :: _) as v) => v
  | _ => default
  end.

(** *** [courses_by_key], a [dict] in insertion order *)

Definition CourseMap := list (text * Course).

Definition keys (d : CourseMap) : list text := map fst d.

Fixpoint mem (key : text) (d : CourseMap) : bool :=
  match d with
  | [] => false
  | (k, _) :: r => Text.eqb k key || mem key r
  end.

Fixpoint lookup (key : text) (d : CourseMap) : option Course :=
  match d with
  | [] => None
  | (k, v) :: r => if Text.eqb k key then Some v else lookup key r
  end.

(** [d[key] = v]: a key already there keeps its place. *)
Fixpoint set (key : text) (v : Course) (d : CourseMap) : CourseMap :=
  match d with
  | [] => [(key, v)]
  | (k, w) :: r =>
      if Text.eqb k key then (k, v) :: r else (k, w) :: set key v r
  end.

(** [d[key]["sections"].append(sec)] *)
Fixpoint append_section (key : text) (sec : Section) (d : CourseMap)
  : CourseMap :=
  match d with
  | [] => []
  | (k, w) :: r =>
      if Text.eqb k key
      then (k, {| subject := subject w; number := number w;
                  title := title w; description := description w;
                  sections := sections w ++ [sec] |}) :: r
      else (k, w) :: append_section key sec r
  end.

(** The f-string ["{subj} {crse}"]. *)
Definition subj_crse (subj crse : text) : text := subj ++ " "%char :: crse.

(** The f-string ["{subj}-{crse}"]. *)
Definition course_key (subj crse : text) : text := subj ++ "-"%char :: crse.

(** The record the catalog loop makes of an entry. *)
Definition course_of_item (item : CatalogItem) : Course :=
  let subj := get (ci_subj item) [] in
  let crse := get (ci_crse item) [] in
  {| subject := subj;
     number := crse;
     title := strip (get (ci_name item) (subj_crse subj crse));
     description := strip (get (ci_description item) []);
     sections := [] |}.

(** The body of the catalog loop. *)
Definition seed_one (d : CourseMap) (entry : text * CatalogItem) : CourseMap :=
  let '(key, item) := entry in
  set key (course_of_item item) d.

Definition seed (catalog : Catalog) : CourseMap :=
  fold_left seed_one catalog [].

(** One timeslot: the meeting it gives, or [None] when it is skipped. *)
Definition meeting_of (ts : Timeslot) : option Meeting :=
  let days := or_else (ts_days ts) [] in
  let start := military_to_str (get (ts_timeStart ts) (Some (-1))) in
  let end_ := military_to_str (get (ts_timeEnd ts) (Some (-1))) in
  let location := strip (get (ts_location ts) []) in
  match days, start, end_ with
  | _ :: _, _ :: _, _ :: _ =>
      Some {| m_days := days; m_start := start; m_end := end_;
              m_location := location |}
  | _, _, _ => None
  end.

Fixpoint meetings_of (tss : list Timeslot) : list Meeting :=
  match tss with
  | [] => []
  | ts :: r =>
      match meeting_of ts with
      | Some m => m :: meetings_of r
      | None => meetings_of r
      end
  end.

Definition section_of (section : SisSection) : Section :=
  {| s_crn := ss_crn section;
     s_section := strip (get (ss_section section) []);
     s_instructor := strip (get (ss_instructor section) []);
     s_meetings := meetings_of (get (ss_timeslots section) []) |}.

(** The key the scheduling source gives a course. *)
Definition sis_key (course : SisCourse) : text :=
  course_key (get (sc_subj course) []) (get (sc_crse course) []).

(** The body of the loop over the courses of a school. *)
Definition merge_course (d : CourseMap) (course : SisCourse) : CourseMap :=
  let subj := get (sc_subj course) [] in
  let crse := get (sc_crse course) [] in
  let name := strip (or_else (sc_name course) (subj_crse subj crse)) in
  let key := course_key subj crse in
  let d1 :=
    if mem key d then d
    else set key {| subject := subj; number := crse; title := name;
                    description := []; sections := [] |} d in
  fold_left (fun acc section => append_section key (section_of section) acc)
            (get (sc_sections course) []) d1.

Definition merge_school (d : CourseMap) (school : School) : CourseMap :=
  fold_left merge_course (get (sch_courses school) []) d.

(** [courses_by_key] after both loops. *)
Definition courses_by_key (catalog : Catalog) (schools : list School)
  : CourseMap :=
  fold_left merge_school schools (seed catalog).

(** The ["courses"] entry of the output: [list(courses_by_key.values())]. *)
Definition output_courses (catalog : Catalog) (schools : list School)
  : list Course :=
  map snd (courses_by_key catalog schools).

(** The record the loop makes of a scheduling entry whose key is new. *)
Definition new_course (course : SisCourse) : Course :=
  let subj := get (sc_subj course) [] in
  let crse := get (sc_crse course) [] in
  {| subject := subj;
     number := crse;
     title := strip (or_else (sc_name course) (subj_crse subj crse));
     description := [];
     sections := [] |}.

(** A course with more sections at the end of its list. *)
Definition with_sections (c : Course) (more : list Section) : Course :=
  {| subject := subject c; number := number c; title := title c;
     description := description c; sections := sections c ++ more |}.

(** The sections the scheduling entries with a given key have, in the
    order of the entries. *)
Definition sections_for (key : text) (courses : list SisCourse)
  : list Section :=
  map section_of
      (flat_map (fun course => get (sc_sections course) [])
                (filter (fun course => Text.eqb (sis_key course) key)
                        courses)).

(** The keys of a list in the order in which they first appear, without
    those already seen. *)
Fixpoint first_seen (seen : list text) (ks : list text) : list text :=
  match ks with
  | [] => []
  | k :: r =>
      if existsb (Text.eqb k) seen then first_seen seen r
      else k :: first_seen (k :: seen) r
  end.

(** Every course of the scheduling source, in the order of the loops. *)
Definition sis_courses (schools : list School) : list SisCourse :=
  flat_map (fun school => get (sch_courses school) []) schools.

(** Every key the scheduling source mentions. *)
Definition sis_keys (schools : list School) : list text :=
  map sis_key (sis_courses schools).


End Courses.


(** ** The academic-calendar scraper *)

Module Calendar.

Definition SOURCE_URL : text := lit "https://registrar.rpi.edu/academic-calendar".

Definition MONTHS : list (text * Z) :=
  [ (lit "Jan", 1); (lit "January", 1);
    (lit "Feb", 2); (lit "February", 2);
    (lit "Mar", 3); (lit "March", 3);
    (lit "Apr", 4); (lit "April", 4);
    (lit "May", 5);
    (lit "Jun", 6); (lit "June", 6);
    (lit "Jul", 7); (lit "July", 7);
    (lit "Aug", 8); (lit "August", 8);
    (lit "Sep", 9); (lit "Sept", 9); (lit "September", 9);
    (lit "Oct", 10); (lit "October", 10);
    (lit "Nov", 11); (lit "November", 11);
    (lit "Dec", 12); (lit "December", 12) ].

(** The abbreviations of [MONTHS]: its keys of three letters. *)
Definition abbreviations : list (text * Z) :=
  filter (fun kv => (List.length (fst kv) =? 3)%nat) MONTHS.

(** [table.get(key)] *)
Fixpoint dict_get (table : list (text * Z)) (key : text) : option Z :=
  match table with
  | [] => None
  | (k, v) :: r => if Text.eqb k key then Some v else dict_get r key
  end.

(** What the scraper raises: the two messages of [parse_date_cell] about a
    month, its last message, and the [ValueError] of the [date] constructor. *)
Inductive error :=
| UnrecognizedMonthInRange
| UnrecognizedMonth
| CouldNotParse
| DateOutOfRange.

Inductive result (A : Type) :=
| Ok (a : A)
| Raise (e : error).
Arguments Ok {A} a.
Arguments Raise {A} e.

Definition bind {A B} (r : result A) (k : A -> result B) : result B :=
  match r with
  | Ok a => k a
  | Raise e => Raise e
  end.

Notation "x <- r ;; k" := (bind r (fun x => k))
  (at level 61, r at next level, right associativity).

(** *** [datetime.date] *)

Record date := { year : Z; month : Z; day : Z }.

Definition is_leap (y : Z) : bool :=
  (y mod 4 =? 0) && (negb (y mod 100 =? 0) || (y mod 400 =? 0)).

Definition days_in_month (y m : Z) : Z :=
  if m =? 2 then (if is_leap y then 29 else 28)
  else if (m =? 4) || (m =? 6) || (m =? 9) || (m =? 11) then 30
  else 31.

(** The constructor [date(y, m, d)], which raises [ValueError] on a year
    outside 1..9999, a month outside 1..12 or a day the month does not
    have. *)
Definition valid_date (y m d : Z) : bool :=
  (1 <=? y) && (y <=? 9999) && (1 <=? m) && (m <=? 12)
  && (1 <=? d) && (d <=? days_in_month y m).

Definition mk_date (y m d : Z) : result date :=
  if valid_date y m d
  then Ok {| year := y; month := m; day := d |}
  else Raise DateOutOfRange.

(** [d.isoformat()] *)
Definition to_iso (d : date) : text :=
  format_0d 4 (year d) ++ "-"%char :: format_0d 2 (month d)
    ++ "-"%char :: format_0d 2 (day d).

(** The order of dates; on the years [date] allows it is the order of
    their ISO 8601 strings. *)
Definition date_leb (a b : date) : bool :=
  (year a <? year b)
  || ((year a =? year b)
      && ((month a <? month b)
          || ((month a =? month b) && (day a <=? day b)))).

(** *** Years and months *)

Definition academic_year_to_years (yy : Z) : Z * Z :=
  let fall_year := 2000 + yy in
  let spring_year := fall_year + 1 in
  (fall_year, spring_year).

Definition month_to_year (month_num fall_year spring_year : Z) : Z :=
  if month_num >=? 8 then fall_year else spring_year.

Fixpoint collapse_ws (in_run : bool) (s : text) : text :=
  match s with
  | [] => []
  | c :: r =>
      if is_space c
      then (if in_run then collapse_ws true r
            else " "%char :: collapse_ws true r)
      else c :: collapse_ws false r
  end.

(** [re.sub(r"\s+", " ", s).strip()] *)
Definition normalize_ws (s : text) : text := strip (collapse_ws false s).

Definition parse_month_name_to_num (s : text) : option Z :=
  let s := strip s in
  match s with
  | [] => None
  | _ =>
      let key := if (3 <=? List.length s)%nat then title (firstn 3 s)
                 else title s in
      match dict_get MONTHS key with
      | Some n => Some n
      | None => dict_get MONTHS (title s)
      end
  end.

(** *** The three date patterns

    In each pattern a repeated class is followed by a character outside
    it or by the end of the text, so the only way to match is to take the
    whole run of the class: [run] does that, and checks the bounds. *)

Definition run (p : ascii -> bool) (lo hi : nat) (s : text)
  : option (text * text) :=
  let t := take_while p s in
  if ((lo <=? List.length t) && (List.length t <=? hi))%nat
  then Some (t, drop_while p s)
  else None.

(** One or more, and zero or more, white-space characters. *)
Definition spaces1 (s : text) : option text :=
  match s with
  | c :: _ => if is_space c then Some (drop_while is_space s) else None
  | [] => None
  end.

Definition spaces0 (s : text) : text := drop_while is_space s.

Definition dash (s : text) : option text :=
  match s with
  | c :: r => if Ascii.eqb c "-"%char then Some r else None
  | [] => None
  end.

(** [$]: the end of the text, or the line feed that ends it. *)
Definition at_end (s : text) : bool :=
  match s with
  | [] => true
  | [c] => Ascii.eqb c "010"%char
  | _ => false
  end.

Definition obind {A B} (o : option A) (k : A -> option B) : option B :=
  match o with
  | Some a => k a
  | None => None
  end.

Notation "' p <~ o ;; k" := (obind o (fun p => k))
  (at level 61, p pattern, o at next level, right associativity).

(** [^(?P<mon>[A-Za-z]{3,9})\s+(?P<d1>\d{1,2})], the start of all three
    patterns: the two groups and the rest of the text. *)
Definition month_day (s : text) : option (text * text * text) :=
  '(mon, s1) <~ run is_alpha 3 9 s ;;
  's2 <~ spaces1 s1 ;;
  '(d, s3) <~ run is_digit 1 2 s2 ;;
  Some (mon, d, s3).

(** [^(?P<mon>[A-Za-z]{3,9})\s+(?P<day>\d{1,2})$] *)
Definition DATE_SINGLE_RE (s : text) : option (text * text) :=
  '(mon, d, s1) <~ month_day s ;;
  if at_end s1 then Some (mon, d) else None.

(** [^(?P<mon>[A-Za-z]{3,9})\s+(?P<d1>\d{1,2})\s*-\s*(?P<d2>\d{1,2})$] *)
Definition DATE_RANGE_SAME_MON_RE (s : text) : option (text * text * text) :=
  '(mon, d1, s1) <~ month_day s ;;
  's2 <~ dash (spaces0 s1) ;;
  '(d2, s3) <~ run is_digit 1 2 (spaces0 s2) ;;
  if at_end s3 then Some (mon, d1, d2) else None.

(** [^(?P<m1>[A-Za-z]{3,9})\s+(?P<d1>\d{1,2})\s*-\s*(?P<m2>[A-Za-z]{3,9})\s+(?P<d2>\d{1,2})$] *)
Definition DATE_RANGE_CROSS_MON_RE (s : text)
  : option (text * text * text * text) :=
  '(m1, d1, s1) <~ month_day s ;;
  's2 <~ dash (spaces0 s1) ;;
  '(m2, d2, s3) <~ month_day (spaces0 s2) ;;
  if at_end s3 then Some (m1, d1, m2, d2) else None.

(** [re.fullmatch(r"\d{1,2}", s)] *)
Definition is_day_number (s : text) : bool :=
  match run is_digit 1 2 s with
  | Some (_, []) => true
  | _ => false
  end.

(** [not m] for an [Optional[int]]. *)
Definition falsy (m : option Z) : bool :=
  match m with
  | None => true
  | Some n => n =? 0
  end.

Definition parse_date_cell (date_cell : text) (current_month_num : option Z)
    (fall_year spring_year : Z) : result (date * date * option Z) :=
  let s := normalize_ws date_cell in
  match DATE_RANGE_CROSS_MON_RE s with
  | Some (m1, d1, m2, d2) =>
      let m1 := parse_month_name_to_num m1 in
      let m2 := parse_month_name_to_num m2 in
      let d1 := int_of_digits d1 in
      let d2 := int_of_digits d2 in
      match m1, m2 with
      | Some m1, Some m2 =>
          if (m1 =? 0) || (m2 =? 0) then Raise UnrecognizedMonthInRange
          else
            let y1 := month_to_year m1 fall_year spring_year in
            let y2 := month_to_year m2 fall_year spring_year in
            a <- mk_date y1 m1 d1 ;;
            b <- mk_date y2 m2 d2 ;;
            Ok (a, b, Some m2)
      | _, _ => Raise UnrecognizedMonthInRange
      end
  | None =>
  match DATE_RANGE_SAME_MON_RE s with
  | Some (mon, d1, d2) =>
      let d1 := int_of_digits d1 in
      let d2 := int_of_digits d2 in
      match parse_month_name_to_num mon with
      | Some mon =>
          if mon =? 0 then Raise UnrecognizedMonthInRange
          else
            let y := month_to_year mon fall_year spring_year in
            a <- mk_date y mon d1 ;;
            b <- mk_date y mon d2 ;;
            Ok (a, b, Some mon)
      | None => Raise UnrecognizedMonthInRange
      end
  | None =>
  match DATE_SINGLE_RE s with
  | Some (mon, d1) =>
      let d1 := int_of_digits d1 in
      match parse_month_name_to_num mon with
      | Some mon =>
          if mon =? 0 then Raise UnrecognizedMonth
          else
            let y := month_to_year mon fall_year spring_year in
            a <- mk_date y mon d1 ;;
            b <- mk_date y mon d1 ;;
            Ok (a, b, Some mon)
      | None => Raise UnrecognizedMonth
      end
  | None =>
      match current_month_num with
      | Some cm =>
          if is_day_number s then
            let d1 := int_of_digits s in
            let y := month_to_year cm fall_year spring_year in
            a <- mk_date y cm d1 ;;
            b <- mk_date y cm d1 ;;
            Ok (a, b, Some cm)
          else Raise CouldNotParse
      | None => Raise CouldNotParse
      end
  end end end.

(** *** Events and their tags *)

Record Tags := {
  noClasses : bool;
  holiday : bool;
  followDay : bool;
  finals : bool;
  readingDays : bool;
  break_ : bool
}.

Record Event := {
  title : text;
  startDate : text;
  endDate : text;
  dow : option text;
  tags : Tags
}.

Definition infer_tags (title : text) : Tags :=
  let t := lower title in
  let has (sub : string) := contains (lit sub) t in
  let is_break :=
    has "break-no classes"%string || (has "break"%string && has "no classes"%string) in
  {| noClasses := has "no classes"%string || is_break;
     holiday := has "staff holiday"%string || has "holiday"%string;
     followDay := has "follow a "%string && has " class schedule"%string;
     finals := has "final exams"%string;
     readingDays :=
       has "reading/study"%string || has "reading day"%string || has "study day"%string;
     break_ := is_break |}.

(** *** The page

    The scraper reads the page through BeautifulSoup.  A table is given
    here by what the scraper asks of it: the text of each [th] cell, and
    for each [tr] the text of its [td] cells, both as
    [get_text(" ", strip=True)] returns them. *)

Record Table := {
  th_texts : list text;
  trs : list (list text)
}.

Definition is_calendar_table (tbl : Table) : bool :=
  let th_text := join (lit " ") (map normalize_ws (th_texts tbl)) in
  contains (lit "Date") th_text && contains (lit "Day") th_text
    && contains (lit "Event") th_text.

Record TermWindow := {
  classesBegin : option text;
  classesEnd : option text
}.

Record CalendarDocument := {
  source : text;
  academicYear : text;
  generatedAt : text;
  fall : TermWindow;
  spring : TermWindow;
  events : list Event
}.

(** [re.fullmatch(r"[A-Za-z]{3}", day_txt)] *)
Definition is_dow (s : text) : bool :=
  match run is_alpha 3 3 s with
  | Some (_, []) => true
  | _ => false
  end.

(** The body of the loop over the rows: the events so far and the current
    month, before and after one [tr]. *)
Definition scrape_row (fall_year spring_year : Z)
    (st : list Event * option Z) (tds : list text) : list Event * option Z :=
  let '(events, current_month_num) := st in
  match tds with
  | td0 :: td1 :: td2 :: _ =>
      let date_txt := normalize_ws td0 in
      let day_txt := normalize_ws td1 in
      let event_txt := normalize_ws td2 in
      match date_txt, event_txt with
      | [], _ | _, [] => st
      | _, _ =>
          match parse_date_cell date_txt current_month_num
                                fall_year spring_year with
          | Raise _ => st
          | Ok (start_d, end_d, new_month) =>
              let day_txt :=
                match day_txt with
                | [] => None
                | _ => if is_dow day_txt then Some (Text.title day_txt)
                       else None
                end in
              let ev := {| title := event_txt;
                           startDate := to_iso start_d;
                           endDate := to_iso end_d;
                           dow := day_txt;
                           tags := infer_tags event_txt |} in
              (events ++ [ev], new_month)
          end
      end
  | _ => st
  end.

(** The same loop body, seen from one row: the event it appends and the
    month it leaves, or [None] when it goes on to the next row. *)
Definition row_event (fall_year spring_year : Z) (current_month_num : option Z)
    (tds : list text) : option (Event * option Z) :=
  match tds with
  | td0 :: td1 :: td2 :: _ =>
      let date_txt := normalize_ws td0 in
      let day_txt := normalize_ws td1 in
      let event_txt := normalize_ws td2 in
      match date_txt, event_txt with
      | [], _ | _, [] => None
      | _, _ =>
          match parse_date_cell date_txt current_month_num
                                fall_year spring_year with
          | Raise _ => None
          | Ok (start_d, end_d, new_month) =>
              let day_txt :=
                match day_txt with
                | [] => None
                | _ => if is_dow day_txt then Some (Text.title day_txt)
                       else None
                end in
              Some ({| title := event_txt;
                       startDate := to_iso start_d;
                       endDate := to_iso end_d;
                       dow := day_txt;
                       tags := infer_tags event_txt |}, new_month)
          end
      end
  | _ => None
  end.

Definition scrape_rows (fall_year spring_year : Z) (tables : list Table)
  : list Event * option Z :=
  fold_left
    (fun st tbl => fold_left (scrape_row fall_year spring_year) (trs tbl) st)
    tables ([], None).

(** The first event, in the order of the list, whose lower-cased title
    passes the test: its start date. *)
Fixpoint first_start (test : text -> bool) (events : list Event)
  : option text :=
  match events with
  | [] => None
  | ev :: r =>
      if test (lower (title ev)) then Some (startDate ev)
      else first_start test r
  end.

Definition find_first_date_containing (events : list Event) (substr : text)
  : option text :=
  let s := lower substr in
  first_start (fun t => contains s t) events.

(** The truth value of an [Optional[str]]. *)
Definition truthy (o : option text) : bool :=
  match o with
  | Some (_ :: _) => true
  | _ => false
  end.

Definition has_both (a b : string) (t : text) : bool :=
  contains (lit a) t && contains (lit b) t.

Definition fall_begin (events : list Event) : option text :=
  let guess :=
    if truthy (find_first_date_containing events (lit "classes begin"))
    then find_first_date_containing events (lit "fall")
    else None in
  match first_start (has_both "fall" "classes begin") events with
  | Some d => Some d
  | None => guess
  end.

Definition fall_end (events : list Event) : option text :=
  first_start (has_both "last day of fall" "classes") events.

Definition spring_begin (events : list Event) : option text :=
  first_start (has_both "spring" "classes begin") events.

Definition spring_end (events : list Event) : option text :=
  first_start (has_both "last day of spring" "classes") events.

(** The terms of the document, from the events that were scraped. *)
Definition infer_terms (events : list Event) : TermWindow * TermWindow :=
  ({| classesBegin := fall_begin events; classesEnd := fall_end events |},
   {| classesBegin := spring_begin events;
      classesEnd := spring_end events |}).

(** [scrape(yy)], after the page was fetched: [tables] is every table of
    the page in document order and [now] the time stamp of the run.  The
    [debug] flag only prints and is left out. *)
Definition scrape (yy : Z) (tables : list Table) (now : text)
  : CalendarDocument :=
  let '(fall_year, spring_year) := academic_year_to_years yy in
  let tables := filter is_calendar_table tables in
  match tables with
  | [] =>
      {| source := SOURCE_URL;
         academicYear := decimal fall_year;
         generatedAt := now;
         fall := {| classesBegin := None; classesEnd := None |};
         spring := {| classesBegin := None; classesEnd := None |};
         events := [] |}
  | _ =>
      let events := fst (scrape_rows fall_year spring_year tables) in
      let '(fall_w, spring_w) := infer_terms events in
      {| source := SOURCE_URL;
         academicYear := decimal fall_year;
         generatedAt := now;
         fall := fall_w;
         spring := spring_w;
         events := events |}
  end.

End Calendar.

(** * Properties *)

Import Courses Calendar.

(** ** Text *)

Section TextFacts.

Lemma eqb_eq (a b : text) : Text.eqb a b = true <-> a = b.
Proof.
  unfold Text.eqb. destruct (list_eq_dec ascii_dec a b); split;
    intros; congruence.
Qed.

Lemma eqb_refl (a : text) : Text.eqb a a = true.
Proof. now apply eqb_eq. Qed.

Lemma eqb_neq (a b : text) : Text.eqb a b = false <-> a <> b.
Proof.
  unfold Text.eqb. destruct (list_eq_dec ascii_dec a b); split;
    intros; congruence.
Qed.

(** The character classes of the date patterns do not overlap. *)
Lemma alpha_not_space c : is_alpha c = true -> is_space c = false.
Proof.
  unfold is_alpha, is_space, is_upper, is_lower, between.
  generalize (code c). intros n H. lia.
Qed.

Lemma alpha_not_digit c : is_alpha c = true -> is_digit c = false.
Proof.
  unfold is_alpha, is_digit, is_upper, is_lower, between.
  generalize (code c). intros n H. lia.
Qed.

Lemma digit_not_alpha c : is_digit c = true -> is_alpha c = false.
Proof.
  unfold is_alpha, is_digit, is_upper, is_lower, between.
  generalize (code c). intros n H. lia.
Qed.

Lemma digit_not_space c : is_digit c = true -> is_space c = false.
Proof.
  unfold is_space, is_digit, between.
  generalize (code c). intros n H. lia.
Qed.

Lemma take_while_all p s : forallb p s = true -> take_while p s = s.
Proof.
  induction s as [|c r IH]; simpl; [reflexivity|].
  destruct (p c); simpl; [intros H; now rewrite IH | discriminate].
Qed.

Lemma drop_while_all p s : forallb p s = true -> drop_while p s = [].
Proof.
  induction s as [|c r IH]; simpl; [reflexivity|].
  destruct (p c); simpl; [assumption | discriminate].
Qed.

Lemma take_while_forallb p s : forallb p (take_while p s) = true.
Proof.
  induction s as [|c r IH]; simpl; [reflexivity|].
  destruct (p c) eqn:E; simpl; [now rewrite E | reflexivity].
Qed.

End TextFacts.

(** ** The course converter: times *)

Section Times.

Lemma format_02d_below_100 n :
  0 <= n < 100 -> format_0d 2 n = two_digits n.
Proof.
  intros Hn.
  assert (Hall : forallb
            (fun k => Text.eqb (format_0d 2 (Z.of_nat k))
                               (two_digits (Z.of_nat k)))
            (seq 0 100) = true) by (vm_compute; reflexivity).
  rewrite forallb_forall in Hall.
  specialize (Hall (Z.to_nat n)).
  rewrite Z2Nat.id in Hall by lia.
  apply eqb_eq, Hall, in_seq. lia.
Qed.

(** C7. For every integer [t] with [0 <= t <= 2359] and [t mod 100 < 60],
    [military_to_str] returns the five characters "HH:MM", two decimal
    digits each for [t / 100] and [t mod 100] (so 930 gives "09:30" and
    1430 gives "14:30"); for every negative [t] and for [None] it returns
    the empty string. *)
Theorem military_to_str_format :
  (forall t : Z, 0 <= t <= 2359 -> t mod 100 < 60 ->
     military_to_str (Some t)
     = two_digits (t / 100) ++ ":"%char :: two_digits (t mod 100))
  /\ military_to_str (Some 930) = lit "09:30"
  /\ military_to_str (Some 1430) = lit "14:30"
  /\ (forall t : Z, t < 0 -> military_to_str (Some t) = [])
  /\ military_to_str None = [].
Proof.
  repeat split; try reflexivity.
  - intros t Ht Hm. unfold military_to_str.
    destruct (Z.ltb_spec t 0) as [Hneg|_]; [lia|].
    rewrite !format_02d_below_100; [reflexivity | |].
    + apply Z.mod_pos_bound; lia.
    + split; [apply Z.div_pos; lia|].
      apply Z.div_lt_upper_bound; lia.
  - intros t Ht. unfold military_to_str.
    destruct (Z.ltb_spec t 0); [reflexivity | lia].
Qed.

Lemma military_to_str_format_witness :
  0 <= 1430 <= 2359 /\ 1430 mod 100 < 60
  /\ military_to_str (Some 1430)
     = two_digits (1430 / 100) ++ ":"%char :: two_digits (1430 mod 100).
Proof.
  split; [lia|]. split; [reflexivity|].
  apply (proj1 military_to_str_format 1430); [lia | reflexivity].
Defined.

End Times.

(** ** Month names *)

Section MonthNames.

Lemma strip_alpha s : forallb is_alpha s = true -> strip s = s.
Proof.
  intros H. unfold strip, lstrip, rstrip.
  assert (Hd : forall t, forallb is_alpha t = true ->
                         drop_while is_space t = t).
  { intros [|c r]; simpl; [reflexivity|].
    intros Hc. apply andb_prop in Hc as [Hc _].
    now rewrite (alpha_not_space _ Hc). }
  rewrite (Hd s H), Hd, rev_involutive; [reflexivity|].
  rewrite forallb_forall in *. intros c Hc. apply H. now apply in_rev.
Qed.

(** On letters, capitalising and lower-casing see only the lower-cased
    letter. *)
Lemma upper_of_lower c :
  is_alpha c = true -> upper_char c = upper_char (lower_char c).
Proof.
  destruct c as [[] [] [] [] [] [] [] []]; vm_compute;
    solve [reflexivity | discriminate].
Qed.

Lemma lower_of_lower c : lower_char c = lower_char (lower_char c).
Proof.
  destruct c as [[] [] [] [] [] [] [] []]; vm_compute; reflexivity.
Qed.

Lemma title_of_three a b c :
  is_alpha a = true -> is_alpha b = true ->
  Text.title [a; b; c]
  = [upper_char (lower_char a); lower_char (lower_char b);
     lower_char (lower_char c)].
Proof.
  intros Ha Hb. unfold Text.title. simpl. rewrite Ha, Hb.
  now rewrite <- upper_of_lower, <- !lower_of_lower.
Qed.

Lemma abbreviation_found abbr n :
  In (abbr, n) abbreviations ->
  exists a b c, lower abbr = [a; b; c]
    /\ dict_get MONTHS [upper_char a; lower_char b; lower_char c] = Some n.
Proof.
  intros H.
  assert (Hall : forallb
            (fun kv =>
               match lower (fst kv) with
               | [a; b; c] =>
                   match dict_get MONTHS
                           [upper_char a; lower_char b; lower_char c] with
                   | Some m => m =? snd kv
                   | None => false
                   end
               | _ => false
               end) abbreviations = true) by (vm_compute; reflexivity).
  rewrite forallb_forall in Hall. specialize (Hall _ H). simpl fst in Hall.
  simpl snd in Hall.
  destruct (lower abbr) as [|a [|b [|c [|]]]]; try discriminate.
  exists a, b, c. split; [reflexivity|].
  destruct (dict_get MONTHS _); [|discriminate].
  f_equal. lia.
Qed.

Lemma dict_get_in table key n :
  dict_get table key = Some n -> In n (map snd table).
Proof.
  induction table as [|[k v] r IH]; simpl; [discriminate|].
  destruct (Text.eqb k key).
  - intros H; injection H as <-. now left.
  - intros H. right. now apply IH.
Qed.

Lemma month_in_range key n : dict_get MONTHS key = Some n -> 1 <= n <= 12.
Proof.
  intros H. apply dict_get_in in H.
  assert (Hall : forallb (fun v => (1 <=? v) && (v <=? 12)) (map snd MONTHS)
                 = true) by (vm_compute; reflexivity).
  rewrite forallb_forall in Hall. specialize (Hall n H). lia.
Qed.

Lemma parse_month_in_range s n :
  parse_month_name_to_num s = Some n -> 1 <= n <= 12.
Proof.
  unfold parse_month_name_to_num. destruct (strip s) as [|c r]; [discriminate|].
  set (key := if (3 <=? _)%nat then _ else _). clearbody key.
  destruct (dict_get MONTHS key) eqn:E.
  - intros H; injection H as <-. eapply month_in_range; eauto.
  - apply month_in_range.
Qed.

End MonthNames.

(** ** The date patterns *)

Section Patterns.

Lemma run_needs_first p lo hi s t rest :
  (1 <= lo)%nat -> run p lo hi s = Some (t, rest) ->
  exists c r, s = c :: r /\ p c = true.
Proof.
  unfold run. intros Hlo.
  destruct s as [|c r]; simpl.
  - destruct lo; [lia | discriminate].
  - destruct (p c) eqn:E; [intros _; eauto|].
    simpl. destruct lo; [lia | discriminate].
Qed.

Lemma run_refuses_first p lo hi c r :
  (1 <= lo)%nat -> p c = false -> run p lo hi (c :: r) = None.
Proof.
  unfold run. intros Hlo E. simpl. rewrite E. simpl.
  destruct lo; [lia | reflexivity].
Qed.

(** Text that starts with a digit does not start with a month name. *)
Lemma month_day_not_digit s t rest :
  run is_digit 1 2 s = Some (t, rest) -> month_day s = None.
Proof.
  intros H. apply run_needs_first in H as (c & r & -> & Hc); [|lia].
  unfold month_day.
  rewrite run_refuses_first; [reflexivity | lia | now apply digit_not_alpha].
Qed.

Lemma at_end_no_dash s : at_end s = true -> dash (spaces0 s) = None.
Proof.
  destruct s as [|c [|d r]]; simpl; try discriminate; [reflexivity|].
  intros H. apply Ascii.eqb_eq in H as ->. reflexivity.
Qed.

(** The three patterns exclude one another, so the order in which
    [parse_date_cell] tries them never decides. *)
Lemma same_not_cross s g :
  DATE_RANGE_SAME_MON_RE s = Some g -> DATE_RANGE_CROSS_MON_RE s = None.
Proof.
  unfold DATE_RANGE_SAME_MON_RE, DATE_RANGE_CROSS_MON_RE.
  destruct (month_day s) as [[[mon d1] s1]|]; simpl; [|discriminate].
  destruct (dash (spaces0 s1)) as [s2|]; simpl; [|discriminate].
  destruct (run is_digit 1 2 (spaces0 s2)) as [[d2 s3]|] eqn:R; simpl;
    [|discriminate].
  intros _. now rewrite (month_day_not_digit _ _ _ R).
Qed.

Lemma single_not_range s g :
  DATE_SINGLE_RE s = Some g ->
  DATE_RANGE_CROSS_MON_RE s = None /\ DATE_RANGE_SAME_MON_RE s = None.
Proof.
  unfold DATE_SINGLE_RE, DATE_RANGE_SAME_MON_RE, DATE_RANGE_CROSS_MON_RE.
  destruct (month_day s) as [[[mon d1] s1]|]; simpl; [|discriminate].
  destruct (at_end s1) eqn:E; [|discriminate].
  intros _. now rewrite (at_end_no_dash _ E).
Qed.

Lemma day_number_no_pattern s :
  is_day_number s = true ->
  DATE_RANGE_CROSS_MON_RE s = None /\ DATE_RANGE_SAME_MON_RE s = None
  /\ DATE_SINGLE_RE s = None.
Proof.
  unfold is_day_number.
  destruct (run is_digit 1 2 s) as [[t rest]|] eqn:R; [|discriminate].
  intros _. apply month_day_not_digit in R.
  unfold DATE_SINGLE_RE, DATE_RANGE_SAME_MON_RE, DATE_RANGE_CROSS_MON_RE.
  now rewrite R.
Qed.

Lemma month_nonzero s n :
  parse_month_name_to_num s = Some n -> (n =? 0) = false.
Proof. intros H. apply parse_month_in_range in H. lia. Qed.

(** What [parse_date_cell] does on each pattern. *)
Lemma parse_cross cell cm fy sy m1s d1 m2s d2 m1 m2 :
  DATE_RANGE_CROSS_MON_RE (normalize_ws cell) = Some (m1s, d1, m2s, d2) ->
  parse_month_name_to_num m1s = Some m1 ->
  parse_month_name_to_num m2s = Some m2 ->
  parse_date_cell cell cm fy sy
  = (a <- mk_date (month_to_year m1 fy sy) m1 (int_of_digits d1) ;;
     b <- mk_date (month_to_year m2 fy sy) m2 (int_of_digits d2) ;;
     Ok (a, b, Some m2)).
Proof.
  intros H H1 H2. unfold parse_date_cell. rewrite H, H1, H2.
  now rewrite (month_nonzero _ _ H1), (month_nonzero _ _ H2).
Qed.

Lemma parse_same cell cm fy sy mons d1 d2 mon :
  DATE_RANGE_SAME_MON_RE (normalize_ws cell) = Some (mons, d1, d2) ->
  parse_month_name_to_num mons = Some mon ->
  parse_date_cell cell cm fy sy
  = (a <- mk_date (month_to_year mon fy sy) mon (int_of_digits d1) ;;
     b <- mk_date (month_to_year mon fy sy) mon (int_of_digits d2) ;;
     Ok (a, b, Some mon)).
Proof.
  intros H H1. unfold parse_date_cell.
  rewrite (same_not_cross _ _ H), H, H1.
  now rewrite (month_nonzero _ _ H1).
Qed.

Lemma parse_single cell cm fy sy mons d mon :
  DATE_SINGLE_RE (normalize_ws cell) = Some (mons, d) ->
  parse_month_name_to_num mons = Some mon ->
  parse_date_cell cell cm fy sy
  = (a <- mk_date (month_to_year mon fy sy) mon (int_of_digits d) ;;
     b <- mk_date (month_to_year mon fy sy) mon (int_of_digits d) ;;
     Ok (a, b, Some mon)).
Proof.
  intros H H1. unfold parse_date_cell.
  destruct (single_not_range _ _ H) as [-> ->]. rewrite H, H1.
  now rewrite (month_nonzero _ _ H1).
Qed.

Lemma parse_bare cell cm fy sy :
  is_day_number (normalize_ws cell) = true ->
  parse_date_cell cell (Some cm) fy sy
  = (a <- mk_date (month_to_year cm fy sy) cm
                  (int_of_digits (normalize_ws cell)) ;;
     b <- mk_date (month_to_year cm fy sy) cm
                  (int_of_digits (normalize_ws cell)) ;;
     Ok (a, b, Some cm)).
Proof.
  intros H. unfold parse_date_cell.
  destruct (day_number_no_pattern _ H) as (-> & -> & ->). now rewrite H.
Qed.

End Patterns.

(** ** The patterns match the texts their expressions describe *)

Section RunFacts.

Variable p : ascii -> bool.

Lemma take_drop_app t rest :
  forallb p t = true -> stops p rest = true ->
  take_while p (t ++ rest) = t /\ drop_while p (t ++ rest) = rest.
Proof.
  intros Ht Hr. induction t as [|c r IH]; simpl in *.
  - destruct rest as [|c r]; simpl in *; [auto|].
    apply negb_true_iff in Hr. rewrite Hr. auto.
  - apply andb_prop in Ht as [Hc Ht]. rewrite Hc.
    destruct (IH Ht) as [-> ->]. auto.
Qed.

Lemma take_drop s :
  s = take_while p s ++ drop_while p s /\ stops p (drop_while p s) = true.
Proof.
  induction s as [|c r [IH1 IH2]]; simpl; [auto|].
  destruct (p c) eqn:E; simpl.
  - split; [now f_equal | assumption].
  - now rewrite E.
Qed.

Lemma run_complete lo hi t rest :
  forallb p t = true -> (lo <= List.length t <= hi)%nat ->
  stops p rest = true ->
  run p lo hi (t ++ rest) = Some (t, rest).
Proof.
  intros Ht Hl Hr. unfold run.
  destruct (take_drop_app t rest Ht Hr) as [-> ->].
  replace (lo <=? List.length t)%nat with true
    by (symmetry; apply Nat.leb_le; lia).
  replace (List.length t <=? hi)%nat with true
    by (symmetry; apply Nat.leb_le; lia).
  reflexivity.
Qed.

Lemma run_sound lo hi s t rest :
  run p lo hi s = Some (t, rest) ->
  s = t ++ rest /\ forallb p t = true
  /\ (lo <= List.length t <= hi)%nat /\ stops p rest = true.
Proof.
  unfold run.
  destruct (lo <=? _)%nat eqn:L1; [|discriminate].
  destruct (_ <=? hi)%nat eqn:L2; [|discriminate].
  simpl. intros H; injection H as <- <-.
  apply Nat.leb_le in L1, L2.
  destruct (take_drop s) as [E S].
  repeat split; try assumption. apply take_while_forallb.
Qed.

End RunFacts.

Section ClassFacts.

Lemma stops_at_first (q r : ascii -> bool) t rest :
  (forall c, q c = true -> r c = false) ->
  forallb q t = true -> (1 <= List.length t)%nat ->
  stops r (t ++ rest) = true.
Proof.
  intros Hqr Ht Hl. destruct t as [|c t']; simpl in *; [lia|].
  apply andb_prop in Ht as [Hc _]. now rewrite (Hqr c Hc).
Qed.

Lemma space_not_alpha c : is_space c = true -> is_alpha c = false.
Proof.
  intros H. destruct (is_alpha c) eqn:E; [|reflexivity].
  apply alpha_not_space in E. congruence.
Qed.

Lemma space_not_digit c : is_space c = true -> is_digit c = false.
Proof.
  intros H. destruct (is_digit c) eqn:E; [|reflexivity].
  apply digit_not_space in E. congruence.
Qed.

Lemma spaces0_complete sp rest :
  forallb is_space sp = true -> stops is_space rest = true ->
  spaces0 (sp ++ rest) = rest.
Proof. intros Hs Hr. apply (take_drop_app is_space sp rest Hs Hr). Qed.

Lemma spaces1_complete sp rest :
  forallb is_space sp = true -> (1 <= List.length sp)%nat ->
  stops is_space rest = true ->
  spaces1 (sp ++ rest) = Some rest.
Proof.
  intros Hs Hl Hr. destruct sp as [|c w]; simpl in *; [lia|].
  apply andb_prop in Hs as [Hc Hw]. rewrite Hc. f_equal.
  apply (take_drop_app is_space w rest Hw Hr).
Qed.

End ClassFacts.

Section PatternShapes.

(** A month name, white space, a day number: the start of every dated
    cell. *)
Variables mon ws d : text.
Hypothesis mon_letters : forallb is_alpha mon = true.
Hypothesis mon_length : (3 <= List.length mon <= 9)%nat.
Hypothesis ws_spaces : forallb is_space ws = true.
Hypothesis ws_length : (1 <= List.length ws)%nat.
Hypothesis d_digits : forallb is_digit d = true.
Hypothesis d_length : (1 <= List.length d <= 2)%nat.

Lemma month_day_complete rest :
  stops is_digit rest = true ->
  month_day (mon ++ ws ++ d ++ rest) = Some (mon, d, rest).
Proof.
  intros Hr. unfold month_day.
  assert (S0 : stops is_alpha (ws ++ d ++ rest) = true)
    by (apply (stops_at_first is_space is_alpha);
        auto using space_not_alpha).
  assert (S1 : stops is_space (d ++ rest) = true)
    by (apply (stops_at_first is_digit is_space);
        auto using digit_not_space; apply d_length).
  rewrite (run_complete is_alpha 3 9 mon _ mon_letters mon_length S0).
  simpl. rewrite (spaces1_complete ws _ ws_spaces ws_length S1). simpl.
  now rewrite (run_complete is_digit 1 2 d rest d_digits d_length Hr).
Qed.

(** [<Mon> <Day>] *)
Lemma single_complete :
  DATE_SINGLE_RE (mon ++ ws ++ d) = Some (mon, d).
Proof.
  unfold DATE_SINGLE_RE.
  pose proof (month_day_complete [] eq_refl) as R.
  rewrite app_nil_r in R. now rewrite R.
Qed.

Variables sp1 sp2 : text.
Hypothesis sp1_spaces : forallb is_space sp1 = true.
Hypothesis sp2_spaces : forallb is_space sp2 = true.

Lemma dash_after_day tail :
  stops is_space tail = true ->
  stops is_digit (sp1 ++ "-"%char :: sp2 ++ tail) = true
  /\ dash (spaces0 (sp1 ++ "-"%char :: sp2 ++ tail)) = Some (sp2 ++ tail)
  /\ spaces0 (sp2 ++ tail) = tail.
Proof.
  intros Ht. split; [|split].
  - generalize sp1_spaces. destruct sp1 as [|c r]; [reflexivity|].
    simpl. intros H. apply andb_prop in H as [Hc _].
    now rewrite (space_not_digit c Hc).
  - now rewrite spaces0_complete.
  - now apply spaces0_complete.
Qed.

(** [<Mon> <Day1> - <Day2>] *)
Lemma same_mon_complete d2 :
  forallb is_digit d2 = true -> (1 <= List.length d2 <= 2)%nat ->
  DATE_RANGE_SAME_MON_RE (mon ++ ws ++ d ++ sp1 ++ "-"%char :: sp2 ++ d2)
  = Some (mon, d, d2).
Proof.
  intros Hd Hl. unfold DATE_RANGE_SAME_MON_RE.
  assert (St : stops is_space d2 = true).
  { rewrite <- (app_nil_r d2).
    apply (stops_at_first is_digit is_space);
      auto using digit_not_space. apply Hl. }
  destruct (dash_after_day d2 St) as (S1 & S2 & S3).
  rewrite (month_day_complete _ S1). simpl. rewrite S2. simpl. rewrite S3.
  pose proof (run_complete is_digit 1 2 d2 [] Hd Hl eq_refl) as R.
  rewrite app_nil_r in R. now rewrite R.
Qed.

End PatternShapes.

Section CrossShape.

(** [<Mon1> <Day1> - <Mon2> <Day2>] *)
Lemma cross_mon_complete m1 w1 d1 sp1 sp2 m2 w2 d2 :
  forallb is_alpha m1 = true -> (3 <= List.length m1 <= 9)%nat ->
  forallb is_space w1 = true -> (1 <= List.length w1)%nat ->
  forallb is_digit d1 = true -> (1 <= List.length d1 <= 2)%nat ->
  forallb is_space sp1 = true -> forallb is_space sp2 = true ->
  forallb is_alpha m2 = true -> (3 <= List.length m2 <= 9)%nat ->
  forallb is_space w2 = true -> (1 <= List.length w2)%nat ->
  forallb is_digit d2 = true -> (1 <= List.length d2 <= 2)%nat ->
  DATE_RANGE_CROSS_MON_RE
    (m1 ++ w1 ++ d1 ++ sp1 ++ "-"%char :: sp2 ++ m2 ++ w2 ++ d2)
  = Some (m1, d1, m2, d2).
Proof.
  intros A1 L1 W1 K1 D1 N1 S1 S2 A2 L2 W2 K2 D2 N2.
  unfold DATE_RANGE_CROSS_MON_RE.
  assert (St : stops is_space (m2 ++ w2 ++ d2) = true).
  { apply (stops_at_first is_alpha is_space);
      auto using alpha_not_space. lia. }
  destruct (dash_after_day sp1 sp2 S1 S2 _ St) as (T1 & T2 & T3).
  rewrite (month_day_complete m1 w1 d1 A1 L1 W1 K1 D1 N1 _ T1). simpl.
  rewrite T2. simpl. rewrite T3.
  pose proof (month_day_complete m2 w2 d2 A2 L2 W2 K2 D2 N2 [] eq_refl) as R.
  rewrite app_nil_r in R. now rewrite R.
Qed.

End CrossShape.

(** ** Dates *)

Section Dates.

Lemma mk_date_valid y m d :
  valid_date y m d = true ->
  mk_date y m d = Ok {| year := y; month := m; day := d |}.
Proof. unfold mk_date. now intros ->. Qed.

Lemma mk_date_invalid y m d :
  valid_date y m d = false -> mk_date y m d = Raise DateOutOfRange.
Proof. unfold mk_date. now intros ->. Qed.

Lemma mk_date_ok y m d a :
  mk_date y m d = Ok a ->
  a = {| year := y; month := m; day := d |} /\ valid_date y m d = true.
Proof.
  unfold mk_date. destruct (valid_date y m d); [|discriminate].
  intros H; injection H as <-. now split.
Qed.

(** Both dates of a cell are made the same way, so one [mk_date] decides
    both. *)
Lemma two_dates_ok y1 m1 d1 y2 m2 d2 (k : option Z)
    (r : date * date * option Z) :
  (a <- mk_date y1 m1 d1 ;; b <- mk_date y2 m2 d2 ;; Ok (a, b, k)) = Ok r ->
  r = ({| year := y1; month := m1; day := d1 |},
       {| year := y2; month := m2; day := d2 |}, k)
  /\ valid_date y1 m1 d1 = true /\ valid_date y2 m2 d2 = true.
Proof.
  unfold mk_date.
  destruct (valid_date y1 m1 d1); simpl; [|discriminate].
  destruct (valid_date y2 m2 d2); simpl; [|discriminate].
  intros H; injection H as <-. auto.
Qed.

End Dates.

(** ** Date cells *)

Section DateCells.

(** The year [month_to_year] gives a month of the calendar. *)
Lemma month_to_year_cases m fy sy :
  1 <= m <= 12 ->
  (8 <= m <= 12 /\ month_to_year m fy sy = fy)
  \/ (1 <= m <= 7 /\ month_to_year m fy sy = sy).
Proof.
  intros Hm. unfold month_to_year.
  destruct (Z.geb_spec m 8); [left | right]; split; (lia || reflexivity).
Qed.

(** C10. A token of letters, three or more, whose first three letters are
    a month abbreviation up to case is taken for that month by
    [parse_month_name_to_num], whatever follows them: "Janitor" is month 1,
    and the date cell "Janitor 5" is the fifth of January. *)
Theorem month_prefix_is_enough :
  (forall (tok abbr : text) (n : Z),
     In (abbr, n) abbreviations ->
     forallb is_alpha tok = true ->
     (3 <= List.length tok)%nat ->
     lower (firstn 3 tok) = lower abbr ->
     parse_month_name_to_num tok = Some n)
  /\ parse_month_name_to_num (lit "Janitor") = Some 1
  /\ (forall cm fy sy, 1 <= sy <= 9999 ->
        parse_date_cell (lit "Janitor 5") cm fy sy
        = Ok ({| year := sy; month := 1; day := 5 |},
              {| year := sy; month := 1; day := 5 |}, Some 1)).
Proof.
  split; [|split; [reflexivity|]].
  - intros tok abbr n Hin Halpha Hlen Hlow.
    unfold parse_month_name_to_num. rewrite (strip_alpha _ Halpha).
    destruct tok as [|a [|b [|c r]]]; simpl in Hlen; try lia.
    replace (3 <=? List.length (a :: b :: c :: r))%nat with true
      by (symmetry; apply Nat.leb_le; simpl; lia).
    simpl in Halpha.
    apply andb_prop in Halpha as [Ha Halpha].
    apply andb_prop in Halpha as [Hb _].
    simpl firstn. rewrite (title_of_three a b c Ha Hb).
    destruct (abbreviation_found _ _ Hin) as (a' & b' & c' & Hl & Hget).
    rewrite Hl in Hlow. simpl in Hlow. injection Hlow as <- <- <-.
    now rewrite Hget.
  - intros cm fy sy Hsy.
    rewrite (parse_single _ cm fy sy (lit "Janitor") (lit "5") 1);
      try reflexivity.
    change (month_to_year 1 fy sy) with sy.
    change (int_of_digits (lit "5")) with 5.
    rewrite mk_date_valid; [reflexivity|].
    unfold valid_date, days_in_month. simpl. lia.
Qed.

Lemma month_prefix_is_enough_witness :
  parse_month_name_to_num (lit "sepTEMBRE") = Some 9.
Proof.
  apply (proj1 month_prefix_is_enough (lit "sepTEMBRE") (lit "Sep") 9).
  - vm_compute. tauto.
  - reflexivity.
  - vm_compute. lia.
  - reflexivity.
Defined.

(** C3. In a cross-month range each end gets its year from its own month:
    the fall year for months 8 to 12, the spring year for months 1 to 7.
    "Dec 23 - Jan 9" starts in the fall year and ends in the spring year. *)
Theorem cross_month_years :
  (forall cell cm fy sy m1s d1 m2s d2 m1 m2,
     DATE_RANGE_CROSS_MON_RE (normalize_ws cell) = Some (m1s, d1, m2s, d2) ->
     parse_month_name_to_num m1s = Some m1 ->
     parse_month_name_to_num m2s = Some m2 ->
     exists y1 y2,
       ((8 <= m1 <= 12 /\ y1 = fy) \/ (1 <= m1 <= 7 /\ y1 = sy))
       /\ ((8 <= m2 <= 12 /\ y2 = fy) \/ (1 <= m2 <= 7 /\ y2 = sy))
       /\ parse_date_cell cell cm fy sy
          = (a <- mk_date y1 m1 (int_of_digits d1) ;;
             b <- mk_date y2 m2 (int_of_digits d2) ;;
             Ok (a, b, Some m2)))
  /\ (forall cm fy sy, 1 <= fy <= 9999 -> 1 <= sy <= 9999 ->
        parse_date_cell (lit "Dec 23 - Jan 9") cm fy sy
        = Ok ({| year := fy; month := 12; day := 23 |},
              {| year := sy; month := 1; day := 9 |}, Some 1)).
Proof.
  split.
  - intros cell cm fy sy m1s d1 m2s d2 m1 m2 H H1 H2.
    exists (month_to_year m1 fy sy), (month_to_year m2 fy sy).
    pose proof (month_to_year_cases m1 fy sy (parse_month_in_range _ _ H1)).
    pose proof (month_to_year_cases m2 fy sy (parse_month_in_range _ _ H2)).
    repeat split; try assumption.
    now apply parse_cross with (m1s := m1s) (m2s := m2s).
  - intros cm fy sy Hfy Hsy.
    rewrite (parse_cross _ cm fy sy (lit "Dec") (lit "23") (lit "Jan")
                         (lit "9") 12 1); try reflexivity.
    change (month_to_year 12 fy sy) with fy.
    change (month_to_year 1 fy sy) with sy.
    change (int_of_digits (lit "23")) with 23.
    change (int_of_digits (lit "9")) with 9.
    rewrite !mk_date_valid; [reflexivity | |];
      unfold valid_date, days_in_month; simpl; lia.
Qed.

Lemma cross_month_years_witness :
  exists y1 y2,
    ((8 <= 12 <= 12 /\ y1 = 2025) \/ (1 <= 12 <= 7 /\ y1 = 2026))
    /\ ((8 <= 1 <= 12 /\ y2 = 2025) \/ (1 <= 1 <= 7 /\ y2 = 2026))
    /\ parse_date_cell (lit "December 23 -Jan  9") None 2025 2026
       = (a <- mk_date y1 12 (int_of_digits (lit "23")) ;;
          b <- mk_date y2 1 (int_of_digits (lit "9")) ;;
          Ok (a, b, Some 1)).
Proof.
  apply (proj1 cross_month_years (lit "December 23 -Jan  9") None 2025 2026
               (lit "December") (lit "23") (lit "Jan") (lit "9") 12 1);
    reflexivity.
Defined.

(** The claim C9 as the specification words it fails on a range with a
    day the month does not have: "Feb 28 - 30" has the same-month form and
    a known month, yet [date] raises and no month is returned.  In the
    scrape the row is dropped and the day number that follows it is read
    in the month before, January. *)
Lemma impossible_day_returns_no_month :
  DATE_RANGE_SAME_MON_RE (normalize_ws (lit "Feb 28 - 30"))
  = Some (lit "Feb", lit "28", lit "30")
  /\ parse_month_name_to_num (lit "Feb") = Some 2
  /\ parse_date_cell (lit "Feb 28 - 30") (Some 1) 2025 2026
     = Raise DateOutOfRange
  /\ map (fun ev => (title ev, startDate ev))
         (events
            (scrape 25
               [{| th_texts := [lit "Date"; lit "Day"; lit "Event"];
                   trs := [[lit "Jan 12"; lit "Mon"; lit "Classes Begin"];
                           [lit "Feb 28 - 30"; lit ""; lit "Winter Days"];
                           [lit "14"; lit "Wed"; lit "Add Deadline"]] |}]
               (lit "2025-08-01T00:00:00+00:00")))
     = [(lit "Classes Begin", lit "2026-01-12");
        (lit "Add Deadline", lit "2026-01-14")].
Proof. repeat split. Qed.

(** C9, amended. On a cell of the same-month form with a known month:
    when [date] accepts both days, [parse_date_cell] returns the two dates
    and the month of the range as the new current month, as the other two
    patterns do, so that a cell that is only a day number, parsed next, is
    a day of that month; when [date] rejects one of the days, it raises
    and returns no month.  It never returns another month. *)
Theorem same_month_range_sets_month cell cm fy sy mons d1 d2 mon :
  DATE_RANGE_SAME_MON_RE (normalize_ws cell) = Some (mons, d1, d2) ->
  parse_month_name_to_num mons = Some mon ->
  let y := month_to_year mon fy sy in
  (valid_date y mon (int_of_digits d1) = true ->
   valid_date y mon (int_of_digits d2) = true ->
   parse_date_cell cell cm fy sy
   = Ok ({| year := y; month := mon; day := int_of_digits d1 |},
         {| year := y; month := mon; day := int_of_digits d2 |}, Some mon)
   /\ forall next,
        is_day_number (normalize_ws next) = true ->
        let d := int_of_digits (normalize_ws next) in
        parse_date_cell next (Some mon) fy sy
        = (a <- mk_date y mon d ;; b <- mk_date y mon d ;;
           Ok (a, b, Some mon)))
  /\ (valid_date y mon (int_of_digits d1) = false
      \/ valid_date y mon (int_of_digits d2) = false ->
      parse_date_cell cell cm fy sy = Raise DateOutOfRange)
  /\ (forall a b new_month,
        parse_date_cell cell cm fy sy = Ok (a, b, new_month) ->
        new_month = Some mon).
Proof.
  intros H H1 y.
  pose proof (parse_same cell cm fy sy _ _ _ _ H H1) as E. fold y in E.
  split; [|split].
  - intros V1 V2. rewrite E, (mk_date_valid _ _ _ V1), (mk_date_valid _ _ _ V2).
    split; [reflexivity|].
    intros next Hn. now apply parse_bare.
  - intros V. rewrite E. unfold mk_date.
    destruct (valid_date y mon (int_of_digits d1)); simpl;
      [|reflexivity].
    destruct V as [V|V]; [discriminate|]. now rewrite V.
  - intros a b new_month R. rewrite E in R.
    apply two_dates_ok in R as (R & _ & _). now injection R as _ _ <-.
Qed.

Lemma same_month_range_sets_month_witness :
  parse_date_cell (lit "Sep 25 - 26") None 2025 2026
  = Ok ({| year := 2025; month := 9; day := 25 |},
        {| year := 2025; month := 9; day := 26 |}, Some 9).
Proof.
  exact (proj1 (proj1 (same_month_range_sets_month
                         (lit "Sep 25 - 26") None 2025 2026
                         (lit "Sep") (lit "25") (lit "26") 9
                         eq_refl eq_refl)
                      eq_refl eq_refl)).
Defined.

(** *** Cells that are only digits *)

Lemma digits_no_pattern s :
  s <> [] -> forallb is_digit s = true ->
  DATE_RANGE_CROSS_MON_RE s = None /\ DATE_RANGE_SAME_MON_RE s = None
  /\ DATE_SINGLE_RE s = None.
Proof.
  intros Hne Hd. destruct s as [|c r]; [congruence|].
  simpl in Hd. apply andb_prop in Hd as [Hc _].
  assert (R : month_day (c :: r) = None).
  { unfold month_day. rewrite run_refuses_first;
      [reflexivity | lia | now apply digit_not_alpha]. }
  unfold DATE_SINGLE_RE, DATE_RANGE_SAME_MON_RE, DATE_RANGE_CROSS_MON_RE.
  now rewrite R.
Qed.

Lemma digits_day_number s :
  s <> [] -> forallb is_digit s = true ->
  is_day_number s = (List.length s <=? 2)%nat.
Proof.
  intros Hne Hd. unfold is_day_number, run.
  rewrite (take_while_all _ _ Hd), (drop_while_all _ _ Hd).
  destruct s as [|a [|b [|c r]]]; [congruence | reflexivity..].
Qed.

(** The claim C6 as the specification words it fails on a cell of three
    digits: "123" is only digits and September is the current month, yet
    the parser raises. *)
Lemma three_digit_cell_raises :
  forallb is_digit (normalize_ws (lit "123")) = true
  /\ parse_date_cell (lit "123") (Some 9) 2025 2026 = Raise CouldNotParse.
Proof. split; reflexivity. Qed.

(** C6, amended. Let a date cell, after white-space normalisation, be
    only digits.  With one or two digits and a current month, the cell is
    that day of the current month, start equal to end, in the year
    [month_to_year] gives the month, provided [date] accepts the day;
    otherwise the constructor raises.  With three or more digits, or with
    no current month, the parser raises its parse error. *)
Theorem bare_day_cell cell fy sy :
  let s := normalize_ws cell in
  s <> [] -> forallb is_digit s = true ->
  (forall cm, (List.length s <= 2)%nat ->
     let y := month_to_year cm fy sy in
     let d := int_of_digits s in
     (valid_date y cm d = true ->
      parse_date_cell cell (Some cm) fy sy
      = Ok ({| year := y; month := cm; day := d |},
            {| year := y; month := cm; day := d |}, Some cm))
     /\ (valid_date y cm d = false ->
         parse_date_cell cell (Some cm) fy sy = Raise DateOutOfRange))
  /\ (forall cm, (2 < List.length s)%nat ->
        parse_date_cell cell cm fy sy = Raise CouldNotParse)
  /\ parse_date_cell cell None fy sy = Raise CouldNotParse.
Proof.
  intros s Hne Hd.
  destruct (digits_no_pattern s Hne Hd) as (Hc & Hs & Hg).
  pose proof (digits_day_number s Hne Hd) as Hday.
  split; [|split].
  - intros cm Hlen y d.
    assert (Hn : is_day_number (normalize_ws cell) = true).
    { fold s. rewrite Hday. now apply Nat.leb_le. }
    rewrite (parse_bare cell cm fy sy Hn). fold s y d.
    split; intros V.
    + now rewrite (mk_date_valid _ _ _ V).
    + now rewrite (mk_date_invalid _ _ _ V).
  - intros cm Hlen. unfold parse_date_cell. fold s. rewrite Hc, Hs, Hg, Hday.
    replace (List.length s <=? 2)%nat with false
      by (symmetry; apply Nat.leb_gt; lia).
    now destruct cm.
  - unfold parse_date_cell. fold s. now rewrite Hc, Hs, Hg.
Qed.

Lemma bare_day_cell_witness :
  parse_date_cell (lit " 14 ") (Some 9) 2025 2026
  = Ok ({| year := 2025; month := 9; day := 14 |},
        {| year := 2025; month := 9; day := 14 |}, Some 9)
  /\ parse_date_cell (lit " 14 ") None 2025 2026 = Raise CouldNotParse.
Proof.
  assert (Hne : normalize_ws (lit " 14 ") <> []) by (vm_compute; discriminate).
  pose proof (bare_day_cell (lit " 14 ") 2025 2026 Hne eq_refl)
    as (Hsome & _ & Hnone).
  split; [|exact Hnone].
  apply (Hsome 9); [vm_compute; lia | reflexivity].
Defined.

(** *** The order of the two dates of a cell *)

(** Every date [parse_date_cell] returns has the year of its month. *)
Lemma date_leb_by_month fy sy m1 d1 m2 d2 :
  fy < sy ->
  let a := {| year := month_to_year m1 fy sy; month := m1; day := d1 |} in
  let b := {| year := month_to_year m2 fy sy; month := m2; day := d2 |} in
  date_leb a b = true <->
  (8 <= m1 /\ m2 <= 7)
  \/ (((8 <= m1 /\ 8 <= m2) \/ (m1 <= 7 /\ m2 <= 7))
      /\ (m1 < m2 \/ (m1 = m2 /\ d1 <= d2))).
Proof.
  intros Hy a b. unfold date_leb, a, b, month_to_year. simpl.
  destruct (Z.geb_spec m1 8), (Z.geb_spec m2 8); lia.
Qed.

(** The claim C2 as the specification words it fails on a range written
    backwards: "Sep 25 - 3" is accepted, and the row is emitted with an
    end date before its start date. *)
Lemma reversed_range_is_emitted :
  parse_date_cell (lit "Sep 25 - 3") None 2025 2026
  = Ok ({| year := 2025; month := 9; day := 25 |},
        {| year := 2025; month := 9; day := 3 |}, Some 9)
  /\ date_leb {| year := 2025; month := 9; day := 25 |}
              {| year := 2025; month := 9; day := 3 |} = false
  /\ map (fun ev => (startDate ev, endDate ev))
         (events
            (scrape 25
               [{| th_texts := [lit "Date"; lit "Day"; lit "Event"];
                   trs := [[lit "Sep 25 - 3"; lit ""; lit "Career Fair"]] |}]
               (lit "2025-08-01T00:00:00+00:00")))
     = [(lit "2025-09-25", lit "2025-09-03")].
Proof. repeat split. Qed.

(** C2, amended. The parser does not compare the two ends of a range.  For
    a cell it accepts, in an academic year (the spring year following the
    fall year): a single date and a bare day give equal start and end; a
    same-month range has its end on or after its start exactly when the
    second day is not below the first; a cross-month range has its end on
    or after its start exactly when it goes from an August-to-December
    month to a January-to-July month, or stays in one of these two halves
    with month and day not decreasing. *)
Theorem accepted_cell_order cell cm yy fy sy a b m :
  academic_year_to_years yy = (fy, sy) ->
  parse_date_cell cell cm fy sy = Ok (a, b, m) ->
  let s := normalize_ws cell in
  match DATE_RANGE_CROSS_MON_RE s, DATE_RANGE_SAME_MON_RE s with
  | Some (m1s, d1, m2s, d2), _ =>
      parse_month_name_to_num m1s = Some (month a)
      /\ parse_month_name_to_num m2s = Some (month b)
      /\ day a = int_of_digits d1 /\ day b = int_of_digits d2
      /\ (date_leb a b = true <->
          (8 <= month a /\ month b <= 7)
          \/ (((8 <= month a /\ 8 <= month b)
               \/ (month a <= 7 /\ month b <= 7))
              /\ (month a < month b
                  \/ (month a = month b /\ day a <= day b))))
  | None, Some (mons, d1, d2) =>
      parse_month_name_to_num mons = Some (month a)
      /\ month b = month a
      /\ day a = int_of_digits d1 /\ day b = int_of_digits d2
      /\ (date_leb a b = true <-> int_of_digits d1 <= int_of_digits d2)
  | None, None => a = b
  end.
Proof.
  intros Hyy H s.
  assert (Hy : fy < sy).
  { unfold academic_year_to_years in Hyy. injection Hyy as <- <-. lia. }
  unfold parse_date_cell in H. fold s in H.
  destruct (DATE_RANGE_CROSS_MON_RE s) as [[[[m1s d1] m2s] d2]|].
  - destruct (parse_month_name_to_num m1s) as [m1|] eqn:E1;
      [|discriminate].
    destruct (parse_month_name_to_num m2s) as [m2|] eqn:E2;
      [|discriminate].
    destruct ((m1 =? 0) || (m2 =? 0)); [discriminate|].
    apply two_dates_ok in H as (H & _ & _). injection H as -> -> _.
    simpl. repeat split; try reflexivity;
      now apply (date_leb_by_month fy sy m1 _ m2 _ Hy).
  - destruct (DATE_RANGE_SAME_MON_RE s) as [[[mons d1] d2]|].
    + destruct (parse_month_name_to_num mons) as [mon|] eqn:E1;
        [|discriminate].
      destruct (mon =? 0); [discriminate|].
      apply two_dates_ok in H as (H & _ & _). injection H as -> -> _.
      simpl. repeat split; try reflexivity.
      * intros L. apply (date_leb_by_month fy sy mon _ mon _ Hy) in L. lia.
      * intros L. apply (date_leb_by_month fy sy mon _ mon _ Hy). lia.
    + destruct (DATE_SINGLE_RE s) as [[mons d1]|].
      * destruct (parse_month_name_to_num mons) as [mon|]; [|discriminate].
        destruct (mon =? 0); [discriminate|].
        apply two_dates_ok in H as (H & _ & _). now injection H as -> -> _.
      * destruct cm as [c|]; [|discriminate].
        destruct (is_day_number s); [|discriminate].
        apply two_dates_ok in H as (H & _ & _). now injection H as -> -> _.
Qed.

Lemma accepted_cell_order_witness :
  date_leb {| year := 2025; month := 12; day := 23 |}
           {| year := 2026; month := 1; day := 9 |} = true
  <-> (8 <= 12 /\ 1 <= 7)
      \/ (((8 <= 12 /\ 8 <= 1) \/ (12 <= 7 /\ 1 <= 7))
          /\ (12 < 1 \/ (12 = 1 /\ 23 <= 9))).
Proof.
  exact (proj2 (proj2 (proj2 (proj2
    (accepted_cell_order (lit "Dec 23 - Jan 9") None 25 2025 2026
       {| year := 2025; month := 12; day := 23 |}
       {| year := 2026; month := 1; day := 9 |} (Some 1)
       eq_refl eq_refl))))).
Defined.

End DateCells.

(** ** The scrape *)

Section Scrape.

(** [first_start] returns the start date of the first event that passes
    the test, and nothing exactly when no event passes it. *)
Lemma first_start_some test evs d :
  first_start test evs = Some d <->
  exists before ev after,
    evs = before ++ ev :: after
    /\ forallb (fun e => negb (test (lower (title e)))) before = true
    /\ test (lower (title ev)) = true
    /\ d = startDate ev.
Proof.
  induction evs as [|e r IH]; simpl.
  - split; [discriminate|]. intros ([|? ?] & ? & ? & ? & _); discriminate.
  - destruct (test (lower (title e))) eqn:T.
    + split.
      * intros H; injection H as <-. exists [], e, r. auto.
      * intros ([|e' bef] & ev & aft & E & B & Tv & ->); simpl in *.
        -- now injection E as <- <-.
        -- injection E as <- _. rewrite T in B. discriminate.
    + rewrite IH. split.
      * intros (bef & ev & aft & -> & B & Tv & ->).
        exists (e :: bef), ev, aft. simpl. rewrite T. auto.
      * intros ([|e' bef] & ev & aft & E & B & Tv & ->); simpl in *.
        -- injection E as <- _. congruence.
        -- injection E as <- ->. apply andb_prop in B as [_ B].
           exists bef, ev, aft. auto.
Qed.

Lemma first_start_none test evs :
  first_start test evs = None <->
  forallb (fun e => negb (test (lower (title e)))) evs = true.
Proof.
  induction evs as [|e r IH]; simpl; [tauto|].
  destruct (test (lower (title e))); simpl; [|exact IH].
  split; discriminate.
Qed.

(** An event with both "fall" and "classes begin" in its title decides
    the start of the fall term. *)
Lemma fall_begin_found evs d :
  first_start (has_both "fall" "classes begin") evs = Some d ->
  fall_begin evs = Some d.
Proof. unfold fall_begin. now intros ->. Qed.

(** Without such an event the first guess stays: when some title has
    "classes begin", the start date of the first event with "fall". *)
Lemma fall_begin_not_found evs :
  first_start (has_both "fall" "classes begin") evs = None ->
  fall_begin evs
  = if truthy (first_start (contains (lit "classes begin")) evs)
    then first_start (contains (lit "fall")) evs
    else None.
Proof. unfold fall_begin. now intros ->. Qed.

(** C8. When no table of the page has "Date", "Day" and "Event" in its
    header text, [scrape] returns the document with no event and with the
    four term boundaries null. *)
Theorem scrape_without_calendar_table yy tables now :
  (forall tbl, In tbl tables -> is_calendar_table tbl = false) ->
  scrape yy tables now
  = {| source := SOURCE_URL;
       academicYear := decimal (2000 + yy);
       generatedAt := now;
       fall := {| classesBegin := None; classesEnd := None |};
       spring := {| classesBegin := None; classesEnd := None |};
       events := [] |}.
Proof.
  intros H. unfold scrape. simpl.
  replace (filter is_calendar_table tables) with (@nil Table); [reflexivity|].
  symmetry. induction tables as [|t r IH]; simpl; [reflexivity|].
  rewrite (H t) by now left. apply IH. intros tbl Hin. apply H. now right.
Qed.

Lemma scrape_without_calendar_table_witness :
  events (scrape 25
            [{| th_texts := [lit "Date"; lit "Day"];
                trs := [[lit "Sep 1"; lit "Mon"; lit "Labor Day"]] |}]
            (lit "2025-08-01T00:00:00+00:00")) = [].
Proof.
  rewrite scrape_without_calendar_table; [reflexivity|].
  intros tbl [<-|[]]. reflexivity.
Defined.

(** C1. On a calendar where one title has "fall" and another has
    "classes begin", but none has both, the start of the fall term is not
    null: it is the start date of the first event that mentions "fall".
    The start of the spring term is found as specified, and the two ends
    are null, as no title has both of their phrases. *)
Theorem fall_begin_without_match :
  let doc :=
    scrape 25
      [{| th_texts := [lit "Date"; lit "Day"; lit "Event"];
          trs := [[lit "Oct 13"; lit "Mon"; lit "Fall Break"];
                  [lit "Jan 12"; lit "Mon"; lit "Spring Classes Begin"]] |}]
      (lit "2025-08-01T00:00:00+00:00") in
  map (fun ev => (title ev, startDate ev)) (events doc)
  = [(lit "Fall Break", lit "2025-10-13");
     (lit "Spring Classes Begin", lit "2026-01-12")]
  /\ first_start (has_both "fall" "classes begin") (events doc) = None
  /\ classesBegin (fall doc) = Some (lit "2025-10-13")
  /\ classesEnd (fall doc) = None
  /\ classesBegin (spring doc) = Some (lit "2026-01-12")
  /\ classesEnd (spring doc) = None.
Proof. repeat split. Qed.

End Scrape.

(** ** The course map *)

Section CourseMapFacts.

Lemma mem_in k d : mem k d = true <-> In k (keys d).
Proof.
  induction d as [|[k0 v] r IH]; simpl; [split; [discriminate | tauto]|].
  rewrite orb_true_iff, IH, eqb_eq. tauto.
Qed.

Lemma lookup_none k d : lookup k d = None <-> ~ In k (keys d).
Proof.
  induction d as [|[k0 v] r IH]; simpl; [tauto|].
  destruct (Text.eqb k0 k) eqn:E.
  - apply eqb_eq in E. split; [discriminate | tauto].
  - apply eqb_neq in E. rewrite IH. tauto.
Qed.

Lemma lookup_in k d : In k (keys d) -> exists c, lookup k d = Some c.
Proof.
  intros H. destruct (lookup k d) as [c|] eqn:E; [eauto|].
  now apply lookup_none in E.
Qed.

Lemma keys_set k v d :
  keys (set k v d) = if mem k d then keys d else keys d ++ [k].
Proof.
  induction d as [|[k0 w] r IH]; simpl; [reflexivity|].
  destruct (Text.eqb k0 k) eqn:E; simpl; [reflexivity|].
  rewrite IH. now destruct (mem k r).
Qed.

Lemma lookup_set_same k v d : lookup k (set k v d) = Some v.
Proof.
  induction d as [|[k0 w] r IH]; simpl; [now rewrite eqb_refl|].
  destruct (Text.eqb k0 k) eqn:E; simpl; now rewrite E.
Qed.

Lemma lookup_set_other k k' v d :
  k' <> k -> lookup k' (set k v d) = lookup k' d.
Proof.
  intros N. induction d as [|[k0 w] r IH]; simpl.
  - apply not_eq_sym in N. apply eqb_neq in N. now rewrite N.
  - destruct (Text.eqb k0 k) eqn:E; simpl.
    + apply eqb_eq in E. subst k0.
      apply not_eq_sym in N. apply eqb_neq in N. now rewrite N.
    + now rewrite IH.
Qed.

Lemma keys_append_section k sec d : keys (append_section k sec d) = keys d.
Proof.
  induction d as [|[k0 w] r IH]; simpl; [reflexivity|].
  destruct (Text.eqb k0 k); simpl; [reflexivity | now rewrite IH].
Qed.

Lemma lookup_append_other k k' sec d :
  k' <> k -> lookup k' (append_section k sec d) = lookup k' d.
Proof.
  intros N. induction d as [|[k0 w] r IH]; simpl; [reflexivity|].
  destruct (Text.eqb k0 k) eqn:E; simpl.
  - apply eqb_eq in E. subst k0.
    apply not_eq_sym in N. apply eqb_neq in N. now rewrite N.
  - now rewrite IH.
Qed.

(** Appending a section leaves the title and the description alone. *)
Lemma lookup_append_same k sec d c :
  lookup k d = Some c ->
  exists c', lookup k (append_section k sec d) = Some c'
    /\ Courses.title c' = Courses.title c
    /\ description c' = description c.
Proof.
  induction d as [|[k0 w] r IH]; simpl; [discriminate|].
  destruct (Text.eqb k0 k) eqn:E; simpl; rewrite E.
  - intros H; injection H as <-. eexists; split; [reflexivity|]. now split.
  - exact IH.
Qed.

Lemma nodup_snoc (k : text) l : NoDup l -> ~ In k l -> NoDup (l ++ [k]).
Proof.
  intros Hl Hk. induction Hl as [|x l Hx Hl IH]; simpl.
  - constructor; [tauto | constructor].
  - constructor.
    + rewrite in_app_iff. simpl. intros [H|[H|[]]]; [tauto|].
      subst. apply Hk. now left.
    + apply IH. intros H. apply Hk. now right.
Qed.

Lemma nodup_set k v d : NoDup (keys d) -> NoDup (keys (set k v d)).
Proof.
  intros H. rewrite keys_set. destruct (mem k d) eqn:E; [assumption|].
  apply nodup_snoc; [assumption|]. rewrite <- mem_in. congruence.
Qed.

Lemma in_keys_set k v d x :
  In x (keys (set k v d)) <-> In x (keys d) \/ x = k.
Proof.
  rewrite keys_set. destruct (mem k d) eqn:E.
  - apply mem_in in E. split; [tauto|]. intros [H| ->]; assumption.
  - rewrite in_app_iff. simpl. intuition congruence.
Qed.

End CourseMapFacts.

(** ** Seeding and merging *)

Section Merge.

Lemma text_eq_dec (a b : text) : {a = b} + {a <> b}.
Proof. apply list_eq_dec, ascii_dec. Qed.

(** *** The catalog loop *)

Lemma seed_keys cat d x :
  In x (keys (fold_left seed_one cat d)) <-> In x (keys d) \/ In x (map fst cat).
Proof.
  revert d. induction cat as [|[k item] r IH]; intros d; simpl; [tauto|].
  rewrite IH, in_keys_set. intuition congruence.
Qed.

Lemma seed_nodup cat d :
  NoDup (keys d) -> NoDup (keys (fold_left seed_one cat d)).
Proof.
  revert d. induction cat as [|[k item] r IH]; intros d H; simpl;
    [assumption|].
  apply IH. now apply nodup_set.
Qed.

Lemma seed_other cat d k :
  ~ In k (map fst cat) ->
  lookup k (fold_left seed_one cat d) = lookup k d.
Proof.
  revert d. induction cat as [|[k0 item] r IH]; intros d H; simpl in *;
    [reflexivity|].
  rewrite IH by tauto. apply lookup_set_other. intros ->. tauto.
Qed.

Lemma seed_lookup cat d k item :
  NoDup (map fst cat) -> In (k, item) cat ->
  lookup k (fold_left seed_one cat d) = Some (course_of_item item).
Proof.
  revert d. induction cat as [|[k0 item0] r IH]; intros d N H; simpl in *;
    [contradiction|].
  inversion N as [|? ? Hk0 Nr]; subst.
  destruct H as [H|H].
  - injection H as -> ->. rewrite seed_other by assumption.
    apply lookup_set_same.
  - now apply IH.
Qed.

Lemma seed_sections cat d :
  (forall k c, lookup k d = Some c -> sections c = []) ->
  forall k c, lookup k (fold_left seed_one cat d) = Some c -> sections c = [].
Proof.
  revert d. induction cat as [|[k0 item] r IH]; intros d H; simpl;
    [exact H|].
  apply IH. intros k c. destruct (text_eq_dec k k0) as [->|N].
  - rewrite lookup_set_same. intros E; injection E as <-. reflexivity.
  - rewrite lookup_set_other by assumption. apply H.
Qed.

(** *** The loop over the scheduling source *)

Lemma sections_fold key secs d :
  let d' := fold_left
              (fun acc section => append_section key (section_of section) acc)
              secs d in
  keys d' = keys d
  /\ (forall k, k <> key -> lookup k d' = lookup k d)
  /\ (forall c, lookup key d = Some c ->
        exists c', lookup key d' = Some c'
          /\ Courses.title c' = Courses.title c
          /\ description c' = description c).
Proof.
  revert d. induction secs as [|sec r IH]; intros d; simpl.
  - repeat split. intros c H. exists c. auto.
  - destruct (IH (append_section key (section_of sec) d)) as (K & O & S).
    split; [|split].
    + now rewrite K, keys_append_section.
    + intros k N. now rewrite O, lookup_append_other.
    + intros c H.
      destruct (lookup_append_same key (section_of sec) d c H)
        as (c1 & H1 & T1 & D1).
      destruct (S c1 H1) as (c2 & H2 & T2 & D2).
      exists c2. repeat split; congruence.
Qed.

Lemma merge_course_spec d course :
  let k0 := sis_key course in
  let d' := merge_course d course in
  (forall x, In x (keys d') <-> In x (keys d) \/ x = k0)
  /\ (NoDup (keys d) -> NoDup (keys d'))
  /\ (forall k, k <> k0 -> lookup k d' = lookup k d)
  /\ (forall c, lookup k0 d = Some c ->
        exists c', lookup k0 d' = Some c'
          /\ Courses.title c' = Courses.title c
          /\ description c' = description c)
  /\ (lookup k0 d = None ->
        exists c', lookup k0 d' = Some c' /\ description c' = []).
Proof.
  intros k0 d'. unfold d', merge_course. fold (sis_key course). fold k0.
  set (fresh := {| subject := _ |}).
  set (d1 := if mem k0 d then d else set k0 fresh d).
  destruct (sections_fold k0 (get (sc_sections course) []) d1)
    as (K & O & S).
  cbv zeta in K, O, S.
  assert (Hk : forall x, In x (keys d1) <-> In x (keys d) \/ x = k0).
  { intros x. unfold d1. destruct (mem k0 d) eqn:M.
    - apply mem_in in M. split; [tauto|]. intros [H| ->]; assumption.
    - apply in_keys_set. }
  assert (Ho : forall k, k <> k0 -> lookup k d1 = lookup k d).
  { intros k N. unfold d1. destruct (mem k0 d); [reflexivity|].
    now apply lookup_set_other. }
  split; [|split; [|split; [|split]]].
  - intros x. rewrite K. apply Hk.
  - intros N. rewrite K. unfold d1. destruct (mem k0 d); [assumption|].
    now apply nodup_set.
  - intros k N. rewrite O by assumption. now apply Ho.
  - intros c H. apply S. unfold d1.
    replace (mem k0 d) with true; [assumption|].
    symmetry. apply mem_in.
    destruct (lookup k0 d) eqn:E; [|discriminate].
    destruct (in_dec text_eq_dec k0 (keys d)) as [I|I]; [assumption|].
    apply lookup_none in I. congruence.
  - intros H. apply lookup_none in H.
    assert (M : mem k0 d = false).
    { destruct (mem k0 d) eqn:M; [|reflexivity]. apply mem_in in M. tauto. }
    destruct (S fresh) as (c' & L & _ & D).
    + unfold d1. rewrite M. apply lookup_set_same.
    + exists c'. split; [assumption|]. rewrite D. reflexivity.
Qed.

Lemma merge_courses_spec cs d :
  let d' := fold_left merge_course cs d in
  (forall x, In x (keys d') <-> In x (keys d) \/ In x (map sis_key cs))
  /\ (NoDup (keys d) -> NoDup (keys d'))
  /\ (forall k, ~ In k (map sis_key cs) -> lookup k d' = lookup k d)
  /\ (forall k c, lookup k d = Some c ->
        exists c', lookup k d' = Some c'
          /\ Courses.title c' = Courses.title c
          /\ description c' = description c)
  /\ (forall k, lookup k d = None -> In k (map sis_key cs) ->
        exists c', lookup k d' = Some c' /\ description c' = []).
Proof.
  revert d. induction cs as [|c0 r IH]; intros d; simpl.
  - repeat split; try tauto. intros k c H. exists c. auto.
  - destruct (merge_course_spec d c0) as (K0 & N0 & O0 & S0 & F0).
    cbv zeta in K0, N0, O0, S0, F0.
    destruct (IH (merge_course d c0)) as (K & N & O & S & F).
    cbv zeta in K, N, O, S, F.
    assert (Keep : forall k c, lookup k d = Some c ->
              exists c', lookup k (merge_course d c0) = Some c'
                /\ Courses.title c' = Courses.title c
                /\ description c' = description c).
    { intros k c H. destruct (text_eq_dec k (sis_key c0)) as [->|Ne].
      - now apply S0.
      - exists c. rewrite O0 by assumption. auto. }
    split; [|split; [|split; [|split]]].
    + intros x. rewrite K, K0. intuition congruence.
    + intros H. apply N, N0, H.
    + intros k H. rewrite O by tauto. apply O0. intros ->. tauto.
    + intros k c H. destruct (Keep k c H) as (c1 & H1 & T1 & D1).
      destruct (S k c1 H1) as (c2 & H2 & T2 & D2).
      exists c2. repeat split; congruence.
    + intros k H I. destruct (text_eq_dec (sis_key c0) k) as [E|Ne].
      * subst k. destruct (F0 H) as (c1 & H1 & D1).
        destruct (S _ c1 H1) as (c2 & H2 & _ & D2).
        exists c2. split; [assumption | congruence].
      * apply F; [|tauto]. rewrite O0 by congruence. assumption.
Qed.

(** The two nested loops visit the courses of all schools in order. *)
Lemma merge_schools_flat schools d :
  fold_left merge_school schools d
  = fold_left merge_course (sis_courses schools) d.
Proof.
  revert d. induction schools as [|s r IH]; intros d; simpl; [reflexivity|].
  unfold sis_courses in *. simpl. rewrite fold_left_app. apply IH.
Qed.

End Merge.

(** ** The merged course list *)

Section CourseList.

Lemma strip_blank s : forallb is_space s = true -> strip s = [].
Proof.
  intros H. unfold strip, lstrip, rstrip.
  now rewrite (drop_while_all _ _ H).
Qed.

(** C5. The merged map has each key once, and its keys are those of the
    catalog together with those of the scheduling source; the output list
    is the list of its values.  A key of the catalog alone has a course
    with no section, a key of the scheduling source alone has a course
    with an empty description. *)
Theorem merge_is_union catalog schools :
  let d := courses_by_key catalog schools in
  output_courses catalog schools = map snd d
  /\ List.length (output_courses catalog schools) = List.length (keys d)
  /\ NoDup (keys d)
  /\ (forall k, In k (keys d) <->
                In k (map fst catalog) \/ In k (sis_keys schools))
  /\ (forall k, In k (map fst catalog) -> ~ In k (sis_keys schools) ->
        exists c, lookup k d = Some c /\ sections c = [])
  /\ (forall k, ~ In k (map fst catalog) -> In k (sis_keys schools) ->
        exists c, lookup k d = Some c /\ description c = []).
Proof.
  intros d. unfold d, output_courses, courses_by_key, seed.
  rewrite merge_schools_flat.
  destruct (merge_courses_spec (sis_courses schools)
                               (fold_left seed_one catalog []))
    as (K & N & O & S & F).
  cbv zeta in K, N, O, S, F. fold (sis_keys schools) in K, O, F.
  split; [reflexivity|]. split; [unfold keys; now rewrite !length_map|].
  split; [apply N, seed_nodup; constructor|].
  split; [|split].
  - intros k. rewrite K, seed_keys. simpl. tauto.
  - intros k Hc Hs. rewrite (O k Hs).
    destruct (lookup_in k (fold_left seed_one catalog [])) as (c & L).
    { apply seed_keys. now right. }
    exists c. split; [assumption|].
    eapply seed_sections; [|exact L]. intros ? ? E. discriminate E.
  - intros k Hc Hs. apply F; [|assumption].
    apply lookup_none. rewrite seed_keys. simpl. tauto.
Qed.

Lemma merge_is_union_witness :
  exists c,
    lookup (lit "MATH-1010")
      (courses_by_key
         [(lit "MATH-1010",
           {| ci_subj := Some (lit "MATH"); ci_crse := Some (lit "1010");
              ci_name := Some (lit "Calculus I");
              ci_description := Some (lit "Limits.") |})]
         [{| sch_courses :=
               Some [{| sc_subj := Some (lit "CSCI");
                        sc_crse := Some (lit "2300");
                        sc_name := None;
                        sc_sections := Some [] |}] |}])
    = Some c /\ sections c = [].
Proof.
  refine (proj1 (proj2 (proj2 (proj2 (proj2 (merge_is_union _ _)))))
            (lit "MATH-1010") _ _).
  - vm_compute. tauto.
  - vm_compute. intros [H|[]]. discriminate H.
Defined.

(** The claim C4 as the specification words it fails on a name of one
    space: the title of the course is empty, not "CSCI 2300". *)
Lemma blank_name_gives_empty_title :
  option_map Courses.title
    (lookup (lit "CSCI-2300")
       (courses_by_key
          [(lit "CSCI-2300",
            {| ci_subj := Some (lit "CSCI"); ci_crse := Some (lit "2300");
               ci_name := Some (lit " "); ci_description := None |})]
          []))
  = Some []
  /\ subj_crse (lit "CSCI") (lit "2300") = lit "CSCI 2300".
Proof. split; reflexivity. Qed.

(** C4, amended. The catalog loop falls back on the subject and the
    course number when the entry has no name: the title of the course is
    then "{subj} {crse}" with the white space around it stripped, and the
    scheduling source never changes it.  A name that is there and is all
    white space gives an empty title. *)
Theorem catalog_title_fallback catalog schools key item :
  NoDup (map fst catalog) ->
  In (key, item) catalog ->
  exists c,
    lookup key (courses_by_key catalog schools) = Some c
    /\ (ci_name item = None ->
        Courses.title c
        = strip (subj_crse (get (ci_subj item) []) (get (ci_crse item) [])))
    /\ (forall name,
          ci_name item = Some name -> name <> [] ->
          forallb is_space name = true ->
          Courses.title c = []).
Proof.
  intros N I. unfold courses_by_key, seed. rewrite merge_schools_flat.
  destruct (merge_courses_spec (sis_courses schools)
                               (fold_left seed_one catalog []))
    as (_ & _ & _ & S & _).
  cbv zeta in S.
  destruct (S key _ (seed_lookup catalog [] key item N I))
    as (c & L & T & _).
  exists c. split; [assumption|]. rewrite T. unfold course_of_item. simpl.
  split.
  - now intros ->.
  - intros name -> _ B. simpl. now apply strip_blank.
Qed.

Lemma catalog_title_fallback_witness :
  exists c,
    lookup (lit "CSCI-2300")
      (courses_by_key
         [(lit "CSCI-2300",
           {| ci_subj := Some (lit "CSCI"); ci_crse := Some (lit "2300");
              ci_name := None; ci_description := None |})]
         [])
    = Some c
    /\ Courses.title c = lit "CSCI 2300".
Proof.
  destruct (catalog_title_fallback
              [(lit "CSCI-2300",
                {| ci_subj := Some (lit "CSCI"); ci_crse := Some (lit "2300");
                   ci_name := None; ci_description := None |})]
              [] (lit "CSCI-2300") _
              ltac:(repeat constructor; simpl; tauto)
              (or_introl eq_refl)) as (c & L & T & _).
  exists c. split; [exact L|]. exact (T eq_refl).
Defined.

End CourseList.

(** * Further properties *)

(** ** Substrings and tags *)

Section Tagging.

Lemma starts_with_spec p s :
  starts_with p s = true <-> exists post, s = p ++ post.
Proof.
  revert s. induction p as [|a p IH]; intros s; simpl.
  - split; [eauto | reflexivity].
  - destruct s as [|b s]; simpl.
    + split; [discriminate | intros [post H]; discriminate].
    + rewrite andb_true_iff, Ascii.eqb_eq, IH. split.
      * intros [-> [post ->]]. eauto.
      * intros [post H]. injection H as -> ->. eauto.
Qed.

(** [contains] is the substring test. *)
Lemma contains_spec needle hay :
  contains needle hay = true <-> exists pre post, hay = pre ++ needle ++ post.
Proof.
  induction hay as [|c r IH].
  - simpl. rewrite orb_false_r, starts_with_spec. split.
    + intros [post H]. exists [], post. exact H.
    + intros ([|? ?] & post & H); [eauto | discriminate].
  - cbn [contains]. rewrite orb_true_iff, starts_with_spec, IH. split.
    + intros [[post H] | (pre & post & ->)].
      * exists [], post. exact H.
      * exists (c :: pre), post. reflexivity.
    + intros ([|c' pre] & post & H).
      * left. eauto.
      * right. injection H as _ ->. eauto.
Qed.

Lemma contains_part x y z t :
  contains (x ++ y ++ z) t = true -> contains y t = true.
Proof.
  rewrite !contains_spec. intros (pre & post & ->).
  exists (pre ++ x), (z ++ post). now rewrite <- !app_assoc.
Qed.

(** X1. Two of the tests of [infer_tags] add nothing: a title is tagged
    holiday exactly when it has "holiday", break exactly when it has both
    "break" and "no classes", and noClasses exactly when it has
    "no classes", all in the lower-cased title.  So a break is always a
    day without classes. *)
Theorem tags_by_three_phrases title :
  let t := lower title in
  holiday (infer_tags title) = contains (lit "holiday") t
  /\ break_ (infer_tags title)
     = contains (lit "break") t && contains (lit "no classes") t
  /\ noClasses (infer_tags title) = contains (lit "no classes") t
  /\ (break_ (infer_tags title) = true -> noClasses (infer_tags title) = true).
Proof.
  intros t. unfold infer_tags. fold t. cbn [holiday break_ noClasses].
  assert (H1 : contains (lit "staff holiday") t = true ->
               contains (lit "holiday") t = true)
    by apply (contains_part (lit "staff ") (lit "holiday") []).
  assert (H2 : contains (lit "break-no classes") t = true ->
               contains (lit "break") t = true)
    by apply (contains_part [] (lit "break") (lit "-no classes")).
  assert (H3 : contains (lit "break-no classes") t = true ->
               contains (lit "no classes") t = true)
    by apply (contains_part (lit "break-") (lit "no classes") []).
  destruct (contains (lit "staff holiday") t),
           (contains (lit "holiday") t),
           (contains (lit "break-no classes") t),
           (contains (lit "break") t),
           (contains (lit "no classes") t); simpl;
    repeat split; auto;
    try (specialize (H1 eq_refl)); try (specialize (H2 eq_refl));
    try (specialize (H3 eq_refl)); congruence.
Qed.

Lemma tags_by_three_phrases_witness :
  noClasses (infer_tags (lit "Spring Break-No Classes")) = true.
Proof.
  apply (tags_by_three_phrases (lit "Spring Break-No Classes")).
  reflexivity.
Defined.

End Tagging.

(** ** White-space normalisation *)

Section Whitespace.

Lemma spaced_collapse b s : spaced_from b (collapse_ws b s) = true.
Proof.
  revert b. induction s as [|c r IH]; intros b; simpl; [reflexivity|].
  destruct (is_space c) eqn:E.
  - destruct b; [apply IH|]. cbn [spaced_from]. simpl. apply IH.
  - cbn [spaced_from]. rewrite E. apply IH.
Qed.

Lemma collapse_spaced b s : spaced_from b s = true -> collapse_ws b s = s.
Proof.
  revert b. induction s as [|c r IH]; intros b; simpl; [reflexivity|].
  destruct (is_space c).
  - intros H. apply andb_prop in H as [H Hr]. apply andb_prop in H as [Hc Hb].
    apply Ascii.eqb_eq in Hc. subst c. destruct b; [discriminate|].
    now rewrite (IH true Hr).
  - intros H. now rewrite (IH false H).
Qed.

Lemma spaced_weaken b s : spaced_from b s = true -> spaced_from false s = true.
Proof.
  destruct s as [|c r]; simpl; [reflexivity|].
  destruct (is_space c); [|tauto].
  intros H. apply andb_prop in H as [H Hr]. apply andb_prop in H as [Hc _].
  now rewrite Hc, Hr.
Qed.

Lemma spaced_suffix b x y :
  spaced_from b (x ++ y) = true -> spaced_from false y = true.
Proof.
  revert b. induction x as [|c x IH]; intros b; simpl; [apply spaced_weaken|].
  destruct (is_space c); [|apply IH].
  intros H. apply andb_prop in H as [_ H]. now apply IH in H.
Qed.

Lemma spaced_prefix b x y :
  spaced_from b (x ++ y) = true -> spaced_from b x = true.
Proof.
  revert b. induction x as [|c x IH]; intros b; simpl; [reflexivity|].
  destruct (is_space c); [|apply IH].
  intros H. apply andb_prop in H as [H Hr]. rewrite H. now apply IH in Hr.
Qed.

Lemma rstrip_prefix s :
  exists post, s = rstrip s ++ post /\ forallb is_space post = true.
Proof.
  unfold rstrip. exists (rev (take_while is_space (rev s))). split.
  - rewrite <- rev_app_distr.
    rewrite <- (proj1 (take_drop is_space (rev s))).
    now rewrite rev_involutive.
  - rewrite forallb_forall. intros c Hc. apply in_rev in Hc.
    pose proof (take_while_forallb is_space (rev s)) as F.
    rewrite forallb_forall in F. now apply F.
Qed.

Lemma stops_prefix p x y :
  stops p (x ++ y) = true -> x <> [] -> stops p x = true.
Proof. destruct x; [congruence | tauto]. Qed.

Lemma lstrip_noop s : stops is_space s = true -> lstrip s = s.
Proof.
  unfold lstrip. destruct s as [|c r]; simpl; [reflexivity|].
  intros H. apply negb_true_iff in H. now rewrite H.
Qed.

Lemma rstrip_noop s : stops is_space (rev s) = true -> rstrip s = s.
Proof.
  intros H. unfold rstrip. fold (lstrip (rev s)).
  now rewrite (lstrip_noop _ H), rev_involutive.
Qed.

(** A stripped text has no white space at either end. *)
Lemma strip_ends s :
  stops is_space (strip s) = true /\ stops is_space (rev (strip s)) = true.
Proof.
  unfold strip. split.
  - destruct (rstrip_prefix (lstrip s)) as (post & E & _).
    destruct (rstrip (lstrip s)) as [|c r] eqn:R; [reflexivity|].
    apply (stops_prefix is_space (c :: r) post); [|discriminate].
    rewrite <- E. apply (take_drop is_space s).
  - unfold rstrip. rewrite rev_involutive. apply take_drop.
Qed.

Lemma spaced_strip b s :
  spaced_from b s = true -> spaced_from false (strip s) = true.
Proof.
  intros H. unfold strip.
  destruct (rstrip_prefix (lstrip s)) as (post & E & _).
  apply (spaced_prefix false _ post). rewrite <- E.
  apply (spaced_suffix b (take_while is_space s)).
  unfold lstrip. now rewrite <- (proj1 (take_drop is_space s)).
Qed.

Lemma spaced_only_spaces b s :
  spaced_from b s = true ->
  forall c, In c s -> is_space c = true -> c = " "%char.
Proof.
  revert b. induction s as [|a r IH]; intros b H c; simpl; [tauto|].
  simpl in H. destruct (is_space a) eqn:E.
  - apply andb_prop in H as [H Hr]. apply andb_prop in H as [Ha _].
    apply Ascii.eqb_eq in Ha. intros [<-|I] S; [assumption|].
    now apply (IH true Hr).
  - intros [<-|I] S; [congruence|]. now apply (IH false H).
Qed.

Lemma spaced_no_double b s :
  spaced_from b s = true ->
  forall pre post, s <> pre ++ " "%char :: " "%char :: post.
Proof.
  revert b. induction s as [|a r IH]; intros b H pre post E.
  - destruct pre; discriminate.
  - simpl in H. destruct pre as [|c pre]; simpl in E.
    + injection E as -> ->. simpl in H. now destruct b.
    + injection E as -> E. destruct (is_space c).
      * apply andb_prop in H as [_ H]. now apply (IH true H pre post).
      * now apply (IH false H pre post).
Qed.

Lemma normalize_ws_spaced s : spaced_from false (normalize_ws s) = true.
Proof. apply (spaced_strip false), spaced_collapse. Qed.

Lemma normalize_ws_idem s : normalize_ws (normalize_ws s) = normalize_ws s.
Proof.
  destruct (strip_ends (collapse_ws false s)) as [E1 E2].
  fold (normalize_ws s) in E1, E2.
  unfold normalize_ws at 1.
  rewrite (collapse_spaced false _ (normalize_ws_spaced s)).
  unfold strip. rewrite (lstrip_noop _ E1). now apply rstrip_noop.
Qed.

(** X2. [normalize_ws] gives a text without white space at its ends, in
    which every white-space character is a space and no two spaces are
    adjacent; it leaves such a text as it is, so normalising twice is
    normalising once, and [parse_date_cell] reads a normalised cell as it
    reads the cell. *)
Theorem normalize_ws_normal s :
  let r := normalize_ws s in
  normalize_ws r = r
  /\ stops is_space r = true
  /\ stops is_space (rev r) = true
  /\ (forall c, In c r -> is_space c = true -> c = " "%char)
  /\ (forall pre post, r <> pre ++ " "%char :: " "%char :: post)
  /\ (forall cm fy sy,
        parse_date_cell r cm fy sy = parse_date_cell s cm fy sy).
Proof.
  intros r.
  pose proof (normalize_ws_spaced s) as Sp. fold r in Sp.
  destruct (strip_ends (collapse_ws false s)) as [E1 E2].
  fold (normalize_ws s) in E1, E2. fold r in E1, E2.
  pose proof (normalize_ws_idem s) as Idem. fold r in Idem.
  repeat split; try assumption.
  - now apply (spaced_only_spaces false).
  - now apply (spaced_no_double false).
  - intros cm fy sy. unfold parse_date_cell. now rewrite Idem.
Qed.

Lemma normalize_ws_normal_witness :
  normalize_ws (lit "  Sep   25 -  26 ") = lit "Sep 25 - 26"
  /\ forall c, In c (lit "Sep 25 - 26") -> is_space c = true -> c = " "%char.
Proof.
  split; [reflexivity|].
  exact (proj1 (proj2 (proj2 (proj2
           (normalize_ws_normal (lit "  Sep   25 -  26 ")))))).
Defined.

End Whitespace.

(** ** What the date parser returns *)

Section ParsedDates.

(** Every success of [parse_date_cell] has this form. *)
Lemma parse_ok_inv cell cm fy sy r :
  parse_date_cell cell cm fy sy = Ok r ->
  exists m1 d1 m2 d2,
    r = ({| year := month_to_year m1 fy sy; month := m1; day := d1 |},
         {| year := month_to_year m2 fy sy; month := m2; day := d2 |},
         Some m2)
    /\ valid_date (month_to_year m1 fy sy) m1 d1 = true
    /\ valid_date (month_to_year m2 fy sy) m2 d2 = true.
Proof.
  unfold parse_date_cell. set (s := normalize_ws cell).
  destruct (DATE_RANGE_CROSS_MON_RE s) as [[[[m1s d1] m2s] d2]|].
  - destruct (parse_month_name_to_num m1s) as [m1|]; [|discriminate].
    destruct (parse_month_name_to_num m2s) as [m2|]; [|discriminate].
    destruct ((m1 =? 0) || (m2 =? 0)); [discriminate|].
    intros H. apply two_dates_ok in H. do 4 eexists. exact H.
  - destruct (DATE_RANGE_SAME_MON_RE s) as [[[mons d1] d2]|].
    + destruct (parse_month_name_to_num mons) as [mon|]; [|discriminate].
      destruct (mon =? 0); [discriminate|].
      intros H. apply two_dates_ok in H. do 4 eexists. exact H.
    + destruct (DATE_SINGLE_RE s) as [[mons d1]|].
      * destruct (parse_month_name_to_num mons) as [mon|]; [|discriminate].
        destruct (mon =? 0); [discriminate|].
        intros H. apply two_dates_ok in H. do 4 eexists. exact H.
      * destruct cm as [c|]; [|discriminate].
        destruct (is_day_number s); [|discriminate].
        intros H. apply two_dates_ok in H. do 4 eexists. exact H.
Qed.

Lemma valid_date_bounds y m d :
  valid_date y m d = true ->
  1 <= y <= 9999 /\ 1 <= m <= 12 /\ 1 <= d <= 31.
Proof.
  unfold valid_date, days_in_month.
  destruct (m =? 2); [destruct (is_leap y)|];
    [| |destruct ((m =? 4) || (m =? 6) || (m =? 9) || (m =? 11))]; lia.
Qed.

(** X3. Whatever cell it is given, when [parse_date_cell] returns, both
    dates are dates of the calendar (month 1..12, a day the month has, year
    1..9999), each has the year [month_to_year] gives its month, and the
    new current month is the month of the end date. *)
Theorem parse_date_cell_returns_dates cell cm fy sy a b m :
  parse_date_cell cell cm fy sy = Ok (a, b, m) ->
  valid_date (year a) (month a) (day a) = true
  /\ valid_date (year b) (month b) (day b) = true
  /\ year a = month_to_year (month a) fy sy
  /\ year b = month_to_year (month b) fy sy
  /\ m = Some (month b)
  /\ 1 <= month a <= 12 /\ 1 <= month b <= 12
  /\ 1 <= day a <= 31 /\ 1 <= day b <= 31.
Proof.
  intros H. apply parse_ok_inv in H as (m1 & d1 & m2 & d2 & E & V1 & V2).
  injection E as -> -> ->. simpl.
  pose proof (valid_date_bounds _ _ _ V1).
  pose proof (valid_date_bounds _ _ _ V2).
  repeat split; try assumption; try reflexivity; lia.
Qed.

Lemma parse_date_cell_returns_dates_witness :
  valid_date 2025 12 23 = true /\ valid_date 2026 1 9 = true.
Proof.
  pose proof (parse_date_cell_returns_dates
                (lit "Dec 23 - Jan 9") None 2025 2026
                {| year := 2025; month := 12; day := 23 |}
                {| year := 2026; month := 1; day := 9 |} (Some 1) eq_refl)
    as (V1 & V2 & _).
  exact (conj V1 V2).
Defined.

(** X4. The current month matters to [parse_date_cell] only for a cell of
    one or two digits: on every other cell the result, success or error,
    is the same whatever the current month is. *)
Theorem current_month_only_for_bare_day cell cm cm' fy sy :
  is_day_number (normalize_ws cell) = false ->
  parse_date_cell cell cm fy sy = parse_date_cell cell cm' fy sy.
Proof.
  intros H. unfold parse_date_cell.
  destruct (DATE_RANGE_CROSS_MON_RE _); [reflexivity|].
  destruct (DATE_RANGE_SAME_MON_RE _); [reflexivity|].
  destruct (DATE_SINGLE_RE _); [reflexivity|].
  rewrite H. now destruct cm, cm'.
Qed.

Lemma current_month_only_for_bare_day_witness :
  parse_date_cell (lit "Sep 1") (Some 3) 2025 2026
  = parse_date_cell (lit "Sep 1") None 2025 2026.
Proof.
  apply (current_month_only_for_bare_day (lit "Sep 1")). reflexivity.
Defined.

End ParsedDates.

(** ** ISO 8601 strings *)

Section IsoStrings.

Lemma format_04d_below_10000 n :
  0 <= n < 10000 -> format_0d 4 n = four_digits n.
Proof.
  intros Hn.
  assert (Hall : forallb
            (fun k => Text.eqb (format_0d 4 (Z.of_nat k))
                               (four_digits (Z.of_nat k)))
            (seq 0 (Z.to_nat 10000)) = true) by (vm_compute; reflexivity).
  rewrite forallb_forall in Hall.
  specialize (Hall (Z.to_nat n)).
  rewrite Z2Nat.id in Hall by lia.
  apply eqb_eq, Hall, in_seq. lia.
Qed.

Lemma code_digit x : 0 <= x <= 9 -> code (digit_char x) = 48 + x.
Proof.
  intros H. unfold code, digit_char, chr.
  rewrite N_ascii_embedding; lia.
Qed.

Lemma compare_digit x y :
  0 <= x <= 9 -> 0 <= y <= 9 ->
  (code (digit_char x) ?= code (digit_char y)) = (x ?= y).
Proof.
  intros Hx Hy. rewrite !code_digit by assumption.
  apply Z.add_compare_mono_l.
Qed.

(** The order of two dates, by year, month and day. *)
Lemma date_leb_compare a b :
  date_leb a b = true <->
  match year a ?= year b with
  | Eq => match month a ?= month b with
          | Eq => day a ?= day b
          | c => c
          end
  | c => c
  end <> Gt.
Proof.
  unfold date_leb.
  destruct (Z.compare_spec (year a) (year b));
    destruct (Z.compare_spec (month a) (month b));
    destruct (Z.compare_spec (day a) (day b));
    split; intros; try discriminate; try lia; congruence.
Qed.

Ltac compare_left :=
  repeat lazymatch goal with
    | |- match (?x ?= ?y) with _ => _ end = _ =>
        destruct (Z.compare_spec x y); cbn [Text.compare]
    end.

Ltac compare_right :=
  repeat match goal with
    | |- _ = match (?x ?= ?y) with _ => _ end =>
        destruct (Z.compare_spec x y); try lia
    | |- _ = (?x ?= ?y) =>
        destruct (Z.compare_spec x y); try lia
    end;
  try reflexivity.

(** Strings of the form YYYY-MM-DD compare as the numbers in them. *)
Lemma compare_iso_digits y3 y2 y1 y0 m1 m0 d1 d0 Y3 Y2 Y1 Y0 M1 M0 D1 D0 :
  0 <= y3 <= 9 -> 0 <= y2 <= 9 -> 0 <= y1 <= 9 -> 0 <= y0 <= 9 ->
  0 <= m1 <= 9 -> 0 <= m0 <= 9 -> 0 <= d1 <= 9 -> 0 <= d0 <= 9 ->
  0 <= Y3 <= 9 -> 0 <= Y2 <= 9 -> 0 <= Y1 <= 9 -> 0 <= Y0 <= 9 ->
  0 <= M1 <= 9 -> 0 <= M0 <= 9 -> 0 <= D1 <= 9 -> 0 <= D0 <= 9 ->
  Text.compare
    ([digit_char y3; digit_char y2; digit_char y1; digit_char y0]
       ++ "-"%char :: [digit_char m1; digit_char m0]
       ++ "-"%char :: [digit_char d1; digit_char d0])
    ([digit_char Y3; digit_char Y2; digit_char Y1; digit_char Y0]
       ++ "-"%char :: [digit_char M1; digit_char M0]
       ++ "-"%char :: [digit_char D1; digit_char D0])
  = match 1000 * y3 + 100 * y2 + 10 * y1 + y0
          ?= 1000 * Y3 + 100 * Y2 + 10 * Y1 + Y0 with
    | Eq => match 10 * m1 + m0 ?= 10 * M1 + M0 with
            | Eq => 10 * d1 + d0 ?= 10 * D1 + D0
            | c => c
            end
    | c => c
    end.
Proof.
  intros. cbn [app Text.compare].
  rewrite !compare_digit by assumption.
  change (code "-"%char ?= code "-"%char) with Eq. cbv iota.
  compare_left; compare_right.
Qed.

Lemma digits_of_4 n :
  0 <= n < 10000 ->
  0 <= n / 1000 <= 9 /\ 0 <= n / 100 mod 10 <= 9
  /\ 0 <= n / 10 mod 10 <= 9 /\ 0 <= n mod 10 <= 9
  /\ n = 1000 * (n / 1000) + 100 * (n / 100 mod 10)
         + 10 * (n / 10 mod 10) + n mod 10.
Proof. intros H. Z.div_mod_to_equations. lia. Qed.

Lemma digits_of_2 n :
  0 <= n < 100 ->
  0 <= n / 10 <= 9 /\ 0 <= n mod 10 <= 9
  /\ n = 10 * (n / 10) + n mod 10.
Proof. intros H. Z.div_mod_to_equations. lia. Qed.

Lemma to_iso_valid d :
  valid_date (year d) (month d) (day d) = true ->
  to_iso d = four_digits (year d) ++ "-"%char :: two_digits (month d)
               ++ "-"%char :: two_digits (day d).
Proof.
  intros V. apply valid_date_bounds in V. unfold to_iso.
  now rewrite format_04d_below_10000, !format_02d_below_100 by lia.
Qed.

(** X5. The ISO string of a date [date] accepts is YYYY-MM-DD, ten
    characters with the year on four digits; on such dates the order of
    the strings is the order of the dates, and equal strings are equal
    dates.  So the events of the document can be sorted and compared on
    [startDate] and [endDate] as text. *)
Theorem iso_strings_order_as_dates a b :
  valid_date (year a) (month a) (day a) = true ->
  valid_date (year b) (month b) (day b) = true ->
  to_iso a = four_digits (year a) ++ "-"%char :: two_digits (month a)
               ++ "-"%char :: two_digits (day a)
  /\ List.length (to_iso a) = 10%nat
  /\ (date_leb a b = true <-> Text.compare (to_iso a) (to_iso b) <> Gt)
  /\ (to_iso a = to_iso b <-> a = b).
Proof.
  intros Va Vb.
  rewrite (to_iso_valid a Va), (to_iso_valid b Vb).
  apply valid_date_bounds in Va, Vb.
  split; [reflexivity|]. split; [reflexivity|].
  destruct (digits_of_4 (year a)) as (? & ? & ? & ? & Ya); [lia|].
  destruct (digits_of_4 (year b)) as (? & ? & ? & ? & Yb); [lia|].
  destruct (digits_of_2 (month a)) as (? & ? & Ma); [lia|].
  destruct (digits_of_2 (month b)) as (? & ? & Mb); [lia|].
  destruct (digits_of_2 (day a)) as (? & ? & Da); [lia|].
  destruct (digits_of_2 (day b)) as (? & ? & Db); [lia|].
  assert (C : Text.compare
                (four_digits (year a) ++ "-"%char :: two_digits (month a)
                   ++ "-"%char :: two_digits (day a))
                (four_digits (year b) ++ "-"%char :: two_digits (month b)
                   ++ "-"%char :: two_digits (day b))
              = match year a ?= year b with
                | Eq => match month a ?= month b with
                        | Eq => day a ?= day b
                        | c => c
                        end
                | c => c
                end).
  { unfold four_digits, two_digits.
    rewrite compare_iso_digits by assumption.
    now rewrite <- Ya, <- Yb, <- Ma, <- Mb, <- Da, <- Db. }
  split.
  - rewrite C. apply date_leb_compare.
  - split; [|now intros ->].
    intros E. rewrite E in C.
    assert (R : forall t, Text.compare t t = Eq).
    { induction t as [|c t IH]; simpl; [reflexivity|].
      now rewrite Z.compare_refl. }
    rewrite R in C.
    destruct (Z.compare_spec (year a) (year b)); try discriminate.
    destruct (Z.compare_spec (month a) (month b)); try discriminate.
    symmetry in C. apply Z.compare_eq in C.
    destruct a, b; simpl in *. congruence.
Qed.

Lemma iso_strings_order_as_dates_witness :
  Text.compare (lit "2025-12-23") (lit "2026-01-09") <> Gt.
Proof.
  apply (iso_strings_order_as_dates
           {| year := 2025; month := 12; day := 23 |}
           {| year := 2026; month := 1; day := 9 |} eq_refl eq_refl).
  reflexivity.
Defined.

End IsoStrings.

(** ** The rows of the calendar *)

Section Rows.

Variables fy sy : Z.

Lemma scrape_row_event evs cm tds :
  scrape_row fy sy (evs, cm) tds
  = match row_event fy sy cm tds with
    | Some (ev, m') => (evs ++ [ev], m')
    | None => (evs, cm)
    end.
Proof.
  unfold scrape_row, row_event.
  destruct tds as [|td0 [|td1 [|td2 rest]]]; try reflexivity.
  destruct (normalize_ws td0) as [|c0 r0]; [reflexivity|].
  destruct (normalize_ws td2) as [|c2 r2]; [reflexivity|].
  destruct (parse_date_cell _ _ _ _) as [[[a b] m']|]; reflexivity.
Qed.

(** What a row that is kept looks like, and the event made of it. *)
Lemma row_event_inv cm tds ev m' :
  row_event fy sy cm tds = Some (ev, m') ->
  exists td0 td1 td2 rest a b,
    tds = td0 :: td1 :: td2 :: rest
    /\ normalize_ws td0 <> [] /\ normalize_ws td2 <> []
    /\ parse_date_cell (normalize_ws td0) cm fy sy = Ok (a, b, m')
    /\ ev = {| title := normalize_ws td2;
               startDate := to_iso a;
               endDate := to_iso b;
               dow := match normalize_ws td1 with
                      | [] => None
                      | _ => if is_dow (normalize_ws td1)
                             then Some (Text.title (normalize_ws td1))
                             else None
                      end;
               tags := infer_tags (normalize_ws td2) |}.
Proof.
  unfold row_event.
  destruct tds as [|td0 [|td1 [|td2 rest]]]; try discriminate.
  destruct (normalize_ws td0) as [|c0 r0] eqn:E0; [discriminate|].
  destruct (normalize_ws td2) as [|c2 r2] eqn:E2; [discriminate|].
  destruct (parse_date_cell _ _ _ _) as [[[a b] m'']|] eqn:P;
    [|discriminate].
  intros H. injection H as <- <-.
  exists td0, td1, td2, rest, a, b. rewrite E0, E2.
  repeat split; try discriminate; try reflexivity. exact P.
Qed.

(** The rows of one table: the events grow by at most one per row, and
    each new event is the event of one of the rows. *)
Lemma rows_events rows evs cm :
  exists new,
    fst (fold_left (scrape_row fy sy) rows (evs, cm)) = evs ++ new
    /\ (List.length new <= List.length rows)%nat
    /\ Forall (fun ev => exists tds cm' m',
                 In tds rows /\ row_event fy sy cm' tds = Some (ev, m')) new.
Proof.
  revert evs cm. induction rows as [|tds rows IH]; intros evs cm.
  - exists []. simpl. rewrite app_nil_r. auto.
  - cbn [fold_left]. rewrite scrape_row_event.
    destruct (row_event fy sy cm tds) as [[ev m']|] eqn:R.
    + destruct (IH (evs ++ [ev]) m') as (new & E & L & F).
      exists (ev :: new). rewrite E, <- app_assoc. simpl.
      split; [reflexivity|]. split; [lia|].
      constructor; [exists tds, cm, m'; auto|].
      eapply Forall_impl; [|exact F].
      intros e (t & c & m & I & H). exists t, c, m. auto.
    + destruct (IH evs cm) as (new & E & L & F).
      exists new. split; [assumption|]. split; [simpl; lia|].
      eapply Forall_impl; [|exact F].
      intros e (t & c & m & I & H). exists t, c, m. simpl. auto.
Qed.

Lemma tables_events tables evs cm :
  exists new,
    fst (fold_left
           (fun st tbl => fold_left (scrape_row fy sy) (trs tbl) st)
           tables (evs, cm)) = evs ++ new
    /\ (List.length new
        <= List.length (flat_map trs tables))%nat
    /\ Forall (fun ev => exists tbl tds cm' m',
                 In tbl tables /\ In tds (trs tbl)
                 /\ row_event fy sy cm' tds = Some (ev, m')) new.
Proof.
  revert evs cm. induction tables as [|tbl tables IH]; intros evs cm.
  - exists []. simpl. rewrite app_nil_r. auto.
  - cbn [fold_left flat_map].
    destruct (rows_events (trs tbl) evs cm) as (n1 & E1 & L1 & F1).
    destruct (fold_left (scrape_row fy sy) (trs tbl) (evs, cm))
      as [evs1 cm1] eqn:R.
    simpl in E1. subst evs1.
    destruct (IH (evs ++ n1) cm1) as (n2 & E2 & L2 & F2).
    exists (n1 ++ n2). rewrite E2, <- app_assoc.
    split; [reflexivity|]. split; [rewrite !length_app; lia|].
    apply Forall_app. split.
    + eapply Forall_impl; [|exact F1].
      intros e (t & c & m & I & H). exists tbl, t, c, m. simpl. auto.
    + eapply Forall_impl; [|exact F2].
      intros e (tb & t & c & m & I1 & I2 & H). exists tb, t, c, m.
      simpl. auto.
Qed.

End Rows.

Section ScrapedEvents.

(** The events of the document are those of the rows of the tables that
    have the three headers, also when there is none. *)
Lemma scrape_events yy tables now :
  events (scrape yy tables now)
  = fst (scrape_rows (2000 + yy) (2000 + yy + 1)
                     (filter is_calendar_table tables)).
Proof.
  unfold scrape. simpl.
  destruct (filter is_calendar_table tables); reflexivity.
Qed.

Lemma scrape_event_rows yy tables now :
  (List.length (events (scrape yy tables now))
   <= List.length (flat_map trs (filter is_calendar_table tables)))%nat
  /\ Forall (fun ev => exists tbl tds cm m',
               In tbl tables /\ is_calendar_table tbl = true
               /\ In tds (trs tbl)
               /\ row_event (2000 + yy) (2000 + yy + 1) cm tds
                  = Some (ev, m'))
            (events (scrape yy tables now)).
Proof.
  rewrite scrape_events. unfold scrape_rows.
  destruct (tables_events (2000 + yy) (2000 + yy + 1)
              (filter is_calendar_table tables) [] None)
    as (new & E & L & F).
  rewrite E. simpl. split; [assumption|].
  eapply Forall_impl; [|exact F].
  intros e (tb & t & c & m & I1 & I2 & H).
  apply filter_In in I1 as [I1 C]. exists tb, t, c, m. auto.
Qed.

End ScrapedEvents.

(** ** The events of the document *)

Section DocumentEvents.
Lemma month_to_year_either m fy sy :
  month_to_year m fy sy = fy \/ month_to_year m fy sy = sy.
Proof. unfold month_to_year. destruct (m >=? 8); auto. Qed.

(** X6. Every event of the document has a title that is not empty and is
    normalised, the tags [infer_tags] gives that title, and start and end
    dates that are the ten-character ISO strings of two dates of the
    calendar, each in the fall year or in the year after it. *)
Theorem scraped_events_well_formed yy tables now :
  Forall (fun ev =>
            title ev <> []
            /\ normalize_ws (title ev) = title ev
            /\ tags ev = infer_tags (title ev)
            /\ List.length (startDate ev) = 10%nat
            /\ List.length (endDate ev) = 10%nat
            /\ exists a b,
                 startDate ev = to_iso a /\ endDate ev = to_iso b
                 /\ valid_date (year a) (month a) (day a) = true
                 /\ valid_date (year b) (month b) (day b) = true
                 /\ (year a = 2000 + yy \/ year a = 2000 + yy + 1)
                 /\ (year b = 2000 + yy \/ year b = 2000 + yy + 1))
         (events (scrape yy tables now)).
Proof.
  eapply Forall_impl; [|apply (proj2 (scrape_event_rows yy tables now))].
  intros ev (tbl & tds & cm & m' & _ & _ & _ & R).
  apply row_event_inv in R
    as (td0 & td1 & td2 & rest & a & b & _ & _ & N2 & P & ->).
  cbn [title tags startDate endDate].
  apply parse_ok_inv in P as (m1 & d1 & m2 & d2 & E & V1 & V2).
  injection E as -> -> _.
  split; [assumption|]. split; [apply normalize_ws_idem|].
  split; [reflexivity|].
  set (A := {| year := _; month := m1 |}).
  set (B := {| year := _; month := m2 |}).
  rewrite (to_iso_valid A V1), (to_iso_valid B V2).
  split; [reflexivity|]. split; [reflexivity|].
  exists A, B. rewrite (to_iso_valid A V1), (to_iso_valid B V2).
  split; [reflexivity|]. split; [reflexivity|].
  repeat split; try assumption; apply month_to_year_either.
Qed.

Lemma title_case_letters c :
  is_alpha c = true ->
  is_upper (upper_char c) = true /\ is_lower (lower_char c) = true.
Proof.
  destruct c as [[] [] [] [] [] [] [] []]; vm_compute;
    solve [auto | discriminate].
Qed.

(** X7. The day of the week of an event is null or three letters, a
    capital and two small ones: the day cell is kept only when it is
    exactly three letters, and is then put in title case. *)
Theorem scraped_dow_shape yy tables now :
  Forall (fun ev =>
            dow ev = None
            \/ exists a b c,
                 dow ev = Some [a; b; c]
                 /\ is_upper a = true /\ is_lower b = true
                 /\ is_lower c = true)
         (events (scrape yy tables now)).
Proof.
  eapply Forall_impl; [|apply (proj2 (scrape_event_rows yy tables now))].
  intros ev (tbl & tds & cm & m' & _ & _ & _ & R).
  apply row_event_inv in R
    as (td0 & td1 & td2 & rest & a & b & _ & _ & _ & _ & ->).
  cbn [dow]. set (w := normalize_ws td1).
  destruct w as [|c0 r0] eqn:W; [now left|]. rewrite <- W. clear W.
  destruct (is_dow w) eqn:D; [|now left]. right.
  unfold is_dow in D.
  destruct (run is_alpha 3 3 w) as [[t [|? ?]]|] eqn:R; try discriminate.
  apply run_sound in R as (E & A & L & _). rewrite app_nil_r in E. subst t.
  destruct w as [|x [|y [|z [|? ?]]]]; simpl in L; try lia.
  simpl in A.
  apply andb_prop in A as [Ax A]. apply andb_prop in A as [Ay A].
  apply andb_prop in A as [Az _].
  exists (upper_char x), (lower_char y), (lower_char z).
  unfold Text.title. simpl. rewrite Ax, Ay.
  split; [reflexivity|].
  repeat split; now apply title_case_letters.
Qed.

(** X8. The document has at most one event per row of the tables with
    the three headers, and each event is made of such a row of three cells
    or more: its title is the normalised third cell, and its dates are
    what [parse_date_cell] returns on the first cell, which is not
    blank. *)
Theorem scraped_events_come_from_rows yy tables now :
  (List.length (events (scrape yy tables now))
   <= List.length (flat_map trs (filter is_calendar_table tables)))%nat
  /\ Forall (fun ev =>
               exists tbl td0 td1 td2 rest,
                 In tbl tables /\ is_calendar_table tbl = true
                 /\ In (td0 :: td1 :: td2 :: rest) (trs tbl)
                 /\ title ev = normalize_ws td2
                 /\ normalize_ws td0 <> []
                 /\ exists cm a b new_month,
                      parse_date_cell td0 cm (2000 + yy) (2000 + yy + 1)
                      = Ok (a, b, new_month)
                      /\ startDate ev = to_iso a /\ endDate ev = to_iso b)
            (events (scrape yy tables now)).
Proof.
  destruct (scrape_event_rows yy tables now) as [L F].
  split; [assumption|].
  eapply Forall_impl; [|exact F].
  intros ev (tbl & tds & cm & m' & I & C & It & R).
  apply row_event_inv in R
    as (td0 & td1 & td2 & rest & a & b & -> & N0 & N2 & P & ->).
  exists tbl, td0, td1, td2, rest. repeat split; try assumption.
  exists cm, a, b, m'. repeat split.
  unfold parse_date_cell in *. now rewrite normalize_ws_idem in P.
Qed.

(** *** Term boundaries *)

Lemma scrape_terms yy tables now :
  let doc := scrape yy tables now in
  fall doc = {| classesBegin := fall_begin (events doc);
                classesEnd := fall_end (events doc) |}
  /\ spring doc = {| classesBegin := spring_begin (events doc);
                     classesEnd := spring_end (events doc) |}.
Proof.
  intros doc. unfold doc, scrape.
  change (academic_year_to_years yy) with (2000 + yy, 2000 + yy + 1).
  cbv beta iota.
  destruct (filter is_calendar_table tables) as [|t ts];
    [split; reflexivity|].
  unfold infer_terms. cbv beta iota zeta. cbn [fall spring events].
  split; reflexivity.
Qed.

Lemma first_start_in test evs d :
  first_start test evs = Some d ->
  exists ev, In ev evs /\ startDate ev = d /\ test (lower (title ev)) = true.
Proof.
  intros H. apply first_start_some in H as (bef & ev & aft & -> & _ & T & ->).
  exists ev. rewrite in_app_iff. simpl. auto.
Qed.

Lemma first_start_found test evs ev :
  In ev evs -> test (lower (title ev)) = true -> first_start test evs <> None.
Proof.
  intros I T N. apply first_start_none in N.
  rewrite forallb_forall in N. specialize (N ev I). now rewrite T in N.
Qed.

(** X9. A term boundary of the document that is not null is the start
    date of one of its events, whose lower-cased title has the name of
    the term ("fall" or "spring"); and a boundary is not null as soon as
    one event has both of its phrases in its title. *)
Theorem term_boundaries_are_event_dates yy tables now :
  let doc := scrape yy tables now in
  let mentions (word : string) (d : text) :=
    exists ev, In ev (events doc) /\ startDate ev = d
               /\ contains (lit word) (lower (title ev)) = true in
  let some_event_has (a b : string) :=
    exists ev, In ev (events doc)
               /\ has_both a b (lower (title ev)) = true in
  (forall d, classesBegin (fall doc) = Some d -> mentions "fall"%string d)
  /\ (forall d, classesEnd (fall doc) = Some d -> mentions "fall"%string d)
  /\ (forall d, classesBegin (spring doc) = Some d ->
                mentions "spring"%string d)
  /\ (forall d, classesEnd (spring doc) = Some d ->
                mentions "spring"%string d)
  /\ (some_event_has "fall"%string "classes begin"%string ->
      classesBegin (fall doc) <> None)
  /\ (some_event_has "last day of fall"%string "classes"%string ->
      classesEnd (fall doc) <> None)
  /\ (some_event_has "spring"%string "classes begin"%string ->
      classesBegin (spring doc) <> None)
  /\ (some_event_has "last day of spring"%string "classes"%string ->
      classesEnd (spring doc) <> None).
Proof.
  intros doc mentions some_event_has.
  destruct (scrape_terms yy tables now) as [Ef Es].
  fold doc in Ef, Es. rewrite Ef, Es. cbn [classesBegin classesEnd].
  unfold mentions, some_event_has.
  assert (Both : forall a b word pre post d,
            lit a = pre ++ lit word ++ post ->
            first_start (has_both a b) (events doc) = Some d ->
            exists ev, In ev (events doc) /\ startDate ev = d
                       /\ contains (lit word) (lower (title ev)) = true).
  { intros a b word pre post d E H.
    apply first_start_in in H as (ev & I & S & T).
    exists ev. repeat split; try assumption.
    unfold has_both in T. apply andb_prop in T as [T _].
    rewrite E in T. now apply contains_part in T. }
  repeat split.
  - intros d. unfold fall_begin.
    destruct (first_start (has_both "fall" "classes begin") (events doc))
      as [d'|] eqn:F.
    + intros H. injection H as <-.
      exact (Both "fall"%string "classes begin"%string "fall"%string
                  [] [] _ eq_refl F).
    + destruct (truthy _); [|discriminate].
      intros H. apply first_start_in in H as (ev & I & S & T). eauto.
  - intros d. exact (Both "last day of fall"%string "classes"%string
                          "fall"%string (lit "last day of ") [] d eq_refl).
  - intros d. exact (Both "spring"%string "classes begin"%string
                          "spring"%string [] [] d eq_refl).
  - intros d. exact (Both "last day of spring"%string "classes"%string
                          "spring"%string (lit "last day of ") [] d eq_refl).
  - intros (ev & I & T) N. unfold fall_begin in N.
    destruct (first_start (has_both "fall" "classes begin") (events doc))
      eqn:F; [discriminate|].
    now apply (first_start_found _ _ _ I T).
  - intros (ev & I & T). now apply (first_start_found _ _ ev).
  - intros (ev & I & T). now apply (first_start_found _ _ ev).
  - intros (ev & I & T). now apply (first_start_found _ _ ev).
Qed.

Lemma term_boundaries_are_event_dates_witness :
  classesBegin
    (spring
       (scrape 25
          [{| th_texts := [lit "Date"; lit "Day"; lit "Event"];
              trs := [[lit "Jan 12"; lit "Mon";
                       lit "Spring Classes Begin"]] |}]
          (lit "2025-08-01T00:00:00+00:00"))) <> None.
Proof.
  apply (term_boundaries_are_event_dates 25).
  eexists. split; [left; reflexivity | reflexivity].
Defined.

End DocumentEvents.
(** ** Times and meetings *)

Section Meetings.

Lemma zero_pad_length w s :
  List.length (zero_pad w s) = Nat.max w (List.length s).
Proof. unfold zero_pad. rewrite length_app, repeat_length. lia. Qed.

Lemma military_to_str_nonneg t :
  0 <= t ->
  military_to_str (Some t)
  = format_0d 2 (t / 100) ++ ":"%char :: two_digits (t mod 100).
Proof.
  intros H. unfold military_to_str.
  destruct (Z.ltb_spec t 0); [lia|].
  rewrite (format_02d_below_100 (t mod 100)); [reflexivity|].
  apply Z.mod_pos_bound. lia.
Qed.

Lemma military_to_str_empty t :
  military_to_str t = [] <-> t = None \/ exists n, t = Some n /\ n < 0.
Proof.
  destruct t as [n|]; simpl.
  - destruct (Z.ltb_spec n 0).
    + split; [eauto|reflexivity].
    + split.
      * intros E. destruct (format_0d 2 (n / 100)); discriminate.
      * intros [E|(m & E & L)]; [discriminate|]. injection E as <-. lia.
  - split; auto.
Qed.

(** X10. [military_to_str] gives the empty string exactly on [None] and on
    negative numbers.  On every other number it checks nothing: the result
    is [t / 100] on two digits or more, a colon, and [t mod 100] on two
    digits, so 2575 gives "25:75" and 12345 gives "123:45". *)
Theorem military_to_str_unchecked :
  (forall t, military_to_str t = [] <->
             t = None \/ exists n, t = Some n /\ n < 0)
  /\ (forall t, 0 <= t ->
        exists hours,
          military_to_str (Some t)
          = hours ++ ":"%char :: two_digits (t mod 100)
          /\ hours = format_0d 2 (t / 100)
          /\ (2 <= List.length hours)%nat)
  /\ military_to_str (Some 2575) = lit "25:75"
  /\ military_to_str (Some 12345) = lit "123:45".
Proof.
  split; [exact military_to_str_empty|].
  split; [|split; reflexivity].
  intros t H. exists (format_0d 2 (t / 100)).
  split; [now apply military_to_str_nonneg|]. split; [reflexivity|].
  unfold format_0d.
  destruct (Z.ltb_spec (t / 100) 0) as [L|_].
  - pose proof (Z.div_pos t 100). lia.
  - rewrite zero_pad_length. lia.
Qed.

Lemma military_to_str_unchecked_witness :
  exists hours,
    military_to_str (Some 2575) = hours ++ ":"%char :: two_digits (2575 mod 100)
    /\ hours = format_0d 2 (2575 / 100)
    /\ (2 <= List.length hours)%nat.
Proof.
  apply (proj1 (proj2 military_to_str_unchecked) 2575). lia.
Defined.

(** X11. A timeslot becomes a meeting exactly when it has a list of days
    that is not empty and start and end times that are numbers, not
    negative; the meeting then has these days, the two times as
    [military_to_str] writes them and the location stripped.  A timeslot
    without a time, or with a null or negative one, is left out. *)
Theorem meeting_kept_iff ts m :
  meeting_of ts = Some m <->
  exists d ds s e,
    ts_days ts = Some (d :: ds)
    /\ ts_timeStart ts = Some (Some s) /\ 0 <= s
    /\ ts_timeEnd ts = Some (Some e) /\ 0 <= e
    /\ m = {| m_days := d :: ds;
              m_start := military_to_str (Some s);
              m_end := military_to_str (Some e);
              m_location := strip (get (ts_location ts) []) |}.
Proof.
  assert (Time : forall f : option (option Z),
            military_to_str (get f (Some (-1))) <> [] ->
            exists n, f = Some (Some n) /\ 0 <= n).
  { intros f N. destruct f as [[n|]|]; simpl in N; try congruence.
    exists n. split; [reflexivity|].
    destruct (Z.ltb_spec n 0); [congruence | assumption]. }
  unfold meeting_of. split.
  - destruct (ts_days ts) as [[|d ds]|]; cbn [or_else]; try discriminate.
    destruct (military_to_str (get (ts_timeStart ts) _)) as [|c1 r1] eqn:S;
      [intros H; discriminate H|].
    destruct (military_to_str (get (ts_timeEnd ts) _)) as [|c2 r2] eqn:E;
      [intros H; discriminate H|].
    intros H. injection H as <-.
    destruct (Time (ts_timeStart ts)) as (s & Hs & Ls);
      [rewrite S; discriminate|].
    destruct (Time (ts_timeEnd ts)) as (e & He & Le);
      [rewrite E; discriminate|].
    exists d, ds, s, e. rewrite Hs, He in *. cbn [get] in S, E.
    rewrite S, E. auto 10.
  - intros (d & ds & s & e & -> & -> & Ls & -> & Le & ->).
    cbn [or_else get].
    rewrite !military_to_str_nonneg by assumption.
    destruct (format_0d 2 (s / 100)), (format_0d 2 (e / 100)); reflexivity.
Qed.

Lemma meeting_kept_iff_witness :
  meeting_of {| ts_days := Some [lit "M"; lit "R"];
                ts_timeStart := Some (Some 930);
                ts_timeEnd := Some (Some 1050);
                ts_location := Some (lit " DCC 308 ") |}
  = Some {| m_days := [lit "M"; lit "R"];
            m_start := lit "09:30";
            m_end := lit "10:50";
            m_location := lit "DCC 308" |}.
Proof.
  apply (proj2 (meeting_kept_iff _ _)).
  exists (lit "M"), [lit "R"], 930, 1050.
  repeat split; lia.
Defined.

End Meetings.

(** ** What the merge puts under each key *)

Section MergedCourses.

Lemma with_sections_nil c : with_sections c [] = c.
Proof. destruct c. unfold with_sections. simpl. now rewrite app_nil_r. Qed.

Lemma with_sections_app c a b :
  with_sections (with_sections c a) b = with_sections c (a ++ b).
Proof. unfold with_sections. simpl. now rewrite app_assoc. Qed.

Lemma lookup_append_section k key sec d :
  lookup k (append_section key sec d)
  = if Text.eqb key k
    then option_map (fun c => with_sections c [sec]) (lookup k d)
    else lookup k d.
Proof.
  induction d as [|[k0 w] r IH]; simpl.
  - now destruct (Text.eqb key k).
  - destruct (Text.eqb k0 key) eqn:E0; simpl.
    + apply eqb_eq in E0. subst k0.
      destruct (Text.eqb key k); reflexivity.
    + rewrite IH. destruct (Text.eqb k0 k) eqn:E1; [|reflexivity].
      apply eqb_eq in E1. subst k0.
      destruct (Text.eqb key k) eqn:E2; [|reflexivity].
      apply eqb_eq in E2. subst key. rewrite eqb_refl in E0. discriminate.
Qed.

Lemma lookup_sections_fold k key secs d :
  lookup k (fold_left
              (fun acc section => append_section key (section_of section) acc)
              secs d)
  = if Text.eqb key k
    then option_map (fun c => with_sections c (map section_of secs))
                    (lookup k d)
    else lookup k d.
Proof.
  revert d. induction secs as [|sec r IH]; intros d; simpl.
  - destruct (Text.eqb key k); [|reflexivity].
    destruct (lookup k d); simpl; [|reflexivity].
    now rewrite with_sections_nil.
  - rewrite IH, lookup_append_section.
    destruct (Text.eqb key k); [|reflexivity].
    destruct (lookup k d); simpl; [|reflexivity].
    now rewrite with_sections_app.
Qed.

(** One scheduling entry: under its own key, the course that was there,
    or else the new one, with the sections of the entry added; other keys
    are untouched. *)
Lemma lookup_merge_course k d course :
  lookup k (merge_course d course)
  = if Text.eqb (sis_key course) k
    then Some (with_sections
                 (match lookup k d with
                  | Some c => c
                  | None => new_course course
                  end)
                 (map section_of (get (sc_sections course) [])))
    else lookup k d.
Proof.
  unfold merge_course. fold (sis_key course). rewrite lookup_sections_fold.
  destruct (Text.eqb (sis_key course) k) eqn:E.
  - apply eqb_eq in E. subst k.
    destruct (mem (sis_key course) d) eqn:M.
    + apply mem_in in M. apply lookup_in in M as [c L]. now rewrite L.
    + rewrite lookup_set_same.
      replace (lookup (sis_key course) d) with (@None Course); [reflexivity|].
      symmetry. apply lookup_none. rewrite <- mem_in. congruence.
  - destruct (mem (sis_key course) d); [reflexivity|].
    apply lookup_set_other. apply eqb_neq in E. congruence.
Qed.

Lemma lookup_merge_courses k cs d :
  lookup k (fold_left merge_course cs d)
  = match lookup k d with
    | Some c => Some (with_sections c (sections_for k cs))
    | None =>
        option_map (fun course =>
                      with_sections (new_course course) (sections_for k cs))
                   (find (fun course => Text.eqb (sis_key course) k) cs)
    end.
Proof.
  revert d. induction cs as [|c0 r IH]; intros d.
  - simpl. destruct (lookup k d); [|reflexivity].
    unfold sections_for. simpl. now rewrite with_sections_nil.
  - cbn [fold_left]. rewrite IH, lookup_merge_course.
    unfold sections_for. cbn [filter find].
    destruct (Text.eqb (sis_key c0) k); [|reflexivity].
    cbn [flat_map]. rewrite map_app.
    destruct (lookup k d); cbn [option_map];
      now rewrite with_sections_app.
Qed.

Lemma seed_lookup_none catalog k :
  ~ In k (map fst catalog) -> lookup k (seed catalog) = None.
Proof. intros H. unfold seed. now rewrite seed_other. Qed.

(** X12. The sections of a course of the output are the sections of all
    scheduling entries with its key, one for one and in the order of the
    entries, whether their timeslots gave meetings or not; the catalog
    gives none. *)
Theorem course_sections_from_entries catalog schools k c :
  lookup k (courses_by_key catalog schools) = Some c ->
  sections c = sections_for k (sis_courses schools)
  /\ List.length (sections c)
     = List.length
         (flat_map (fun course => get (sc_sections course) [])
            (filter (fun course => Text.eqb (sis_key course) k)
                    (sis_courses schools))).
Proof.
  unfold courses_by_key. rewrite merge_schools_flat, lookup_merge_courses.
  assert (E : forall c', sections c' = [] ->
            sections (with_sections c' (sections_for k (sis_courses schools)))
            = sections_for k (sis_courses schools)).
  { intros c' H. unfold with_sections. simpl. now rewrite H. }
  assert (L : forall x, sections c = sections_for k x ->
            List.length (sections c)
            = List.length
                (flat_map (fun course => get (sc_sections course) [])
                   (filter (fun course => Text.eqb (sis_key course) k) x))).
  { intros x H. rewrite H. unfold sections_for. apply length_map. }
  destruct (lookup k (seed catalog)) as [c'|] eqn:S.
  - intros H. injection H as <-.
    assert (N : sections c' = []).
    { eapply (seed_sections catalog []); [|exact S].
      intros ? ? X. discriminate X. }
    split; [now apply E|]. apply L. now apply E.
  - destruct (find _ _) as [course|]; [|discriminate].
    intros H. injection H as <-.
    split; [now apply E|]. apply L. now apply E.
Qed.

Lemma course_sections_from_entries_witness :
  List.length
    (sections
       (with_sections
          (new_course
             {| sc_subj := Some (lit "CSCI"); sc_crse := Some (lit "2300");
                sc_name := None;
                sc_sections :=
                  Some [{| ss_crn := Some 1; ss_section := None;
                           ss_instructor := None;
                           ss_timeslots := None |}] |})
          [section_of {| ss_crn := Some 1; ss_section := None;
                         ss_instructor := None; ss_timeslots := None |}]))
  = 1%nat.
Proof.
  exact (proj2 (course_sections_from_entries []
           [{| sch_courses :=
                 Some [{| sc_subj := Some (lit "CSCI");
                          sc_crse := Some (lit "2300");
                          sc_name := None;
                          sc_sections :=
                            Some [{| ss_crn := Some 1; ss_section := None;
                                     ss_instructor := None;
                                     ss_timeslots := None |}] |}] |}]
           (lit "CSCI-2300") _ eq_refl)).
Defined.

(** X13. A course that is in the catalog keeps what the catalog says:
    subject, number, title and description are those of the catalog
    entry, whatever the scheduling entries with the same key hold; the
    scheduling source only adds sections. *)
Theorem catalog_entry_wins catalog schools key item :
  NoDup (map fst catalog) ->
  In (key, item) catalog ->
  exists c,
    lookup key (courses_by_key catalog schools) = Some c
    /\ subject c = get (ci_subj item) []
    /\ number c = get (ci_crse item) []
    /\ Courses.title c
       = strip (get (ci_name item)
                    (subj_crse (get (ci_subj item) [])
                               (get (ci_crse item) [])))
    /\ description c = strip (get (ci_description item) [])
    /\ sections c = sections_for key (sis_courses schools).
Proof.
  intros N I. unfold courses_by_key.
  rewrite merge_schools_flat, lookup_merge_courses.
  unfold seed. rewrite (seed_lookup catalog [] key item N I).
  eexists. split; [reflexivity|]. repeat split.
Qed.

Lemma catalog_entry_wins_witness :
  exists c,
    lookup (lit "CSCI-2300")
      (courses_by_key
         [(lit "CSCI-2300",
           {| ci_subj := Some (lit "CSCI"); ci_crse := Some (lit "2300");
              ci_name := Some (lit "Intro to Algorithms");
              ci_description := None |})]
         [{| sch_courses :=
               Some [{| sc_subj := Some (lit "CSCI");
                        sc_crse := Some (lit "2300");
                        sc_name := Some (lit "INTRO ALGO");
                        sc_sections := None |}] |}])
    = Some c
    /\ Courses.title c = lit "Intro to Algorithms".
Proof.
  destruct (catalog_entry_wins
              [(lit "CSCI-2300",
                {| ci_subj := Some (lit "CSCI"); ci_crse := Some (lit "2300");
                   ci_name := Some (lit "Intro to Algorithms");
                   ci_description := None |})]
              [{| sch_courses :=
                    Some [{| sc_subj := Some (lit "CSCI");
                             sc_crse := Some (lit "2300");
                             sc_name := Some (lit "INTRO ALGO");
                             sc_sections := None |}] |}]
              (lit "CSCI-2300") _
              ltac:(repeat constructor; simpl; tauto)
              (or_introl eq_refl)) as (c & L & _ & _ & T & _).
  exists c. split; [exact L | exact T].
Defined.

(** X14. A key that is not in the catalog has a course exactly when a
    scheduling entry has it, and the first such entry decides: subject
    and number are its own, the description is empty, and the title is
    its name stripped, or "{subj} {crse}" stripped when the name is
    absent or empty.  Later entries with the key only add sections. *)
Theorem scheduling_only_course catalog schools k :
  ~ In k (map fst catalog) ->
  match find (fun course => Text.eqb (sis_key course) k)
             (sis_courses schools) with
  | None => lookup k (courses_by_key catalog schools) = None
  | Some course =>
      let subj := get (sc_subj course) [] in
      let crse := get (sc_crse course) [] in
      exists c,
        lookup k (courses_by_key catalog schools) = Some c
        /\ k = course_key subj crse
        /\ subject c = subj /\ number c = crse
        /\ description c = []
        /\ sections c = sections_for k (sis_courses schools)
        /\ (sc_name course = None \/ sc_name course = Some [] ->
            Courses.title c = strip (subj_crse subj crse))
        /\ (forall name, sc_name course = Some name -> name <> [] ->
            Courses.title c = strip name)
  end.
Proof.
  intros N. unfold courses_by_key.
  rewrite merge_schools_flat, lookup_merge_courses.
  rewrite (seed_lookup_none catalog k N).
  destruct (find _ _) as [course|] eqn:F; [|reflexivity].
  apply find_some in F as [_ F]. apply eqb_eq in F.
  cbn zeta. eexists. split; [reflexivity|].
  split; [now rewrite <- F|].
  repeat split.
  - intros [E|E]; cbn; now rewrite E.
  - intros name E Ne. cbn. rewrite E. destruct name; [congruence|reflexivity].
Qed.

Lemma scheduling_only_course_witness :
  exists c,
    lookup (lit "PHYS-1100")
      (courses_by_key []
         [{| sch_courses :=
               Some [{| sc_subj := Some (lit "PHYS");
                        sc_crse := Some (lit "1100");
                        sc_name := Some [];
                        sc_sections := None |};
                     {| sc_subj := Some (lit "PHYS");
                        sc_crse := Some (lit "1100");
                        sc_name := Some (lit "Physics I");
                        sc_sections := None |}] |}])
    = Some c
    /\ Courses.title c = lit "PHYS 1100".
Proof.
  pose proof (scheduling_only_course []
         [{| sch_courses :=
               Some [{| sc_subj := Some (lit "PHYS");
                        sc_crse := Some (lit "1100");
                        sc_name := Some [];
                        sc_sections := None |};
                     {| sc_subj := Some (lit "PHYS");
                        sc_crse := Some (lit "1100");
                        sc_name := Some (lit "Physics I");
                        sc_sections := None |}] |}]
         (lit "PHYS-1100") (fun H => H)) as H.
  cbn in H. destruct H as (c & L & _ & _ & _ & _ & _ & T & _).
  exists c. split; [exact L|]. apply T. now right.
Defined.

End MergedCourses.

(** ** The order of the output *)

Section OutputOrder.

Lemma seen_in k seen : existsb (Text.eqb k) seen = true <-> In k seen.
Proof.
  rewrite existsb_exists. split.
  - intros (x & I & E). apply eqb_eq in E. now subst.
  - intros I. exists k. split; [assumption | apply eqb_refl].
Qed.

Lemma seen_mem k d : existsb (Text.eqb k) (keys d) = mem k d.
Proof.
  apply eq_true_iff_eq. now rewrite seen_in, mem_in.
Qed.

(** [first_seen] looks at [seen] only to know what is in it. *)
Lemma first_seen_same s1 s2 ks :
  (forall k, In k s1 <-> In k s2) -> first_seen s1 ks = first_seen s2 ks.
Proof.
  revert s1 s2. induction ks as [|k r IH]; intros s1 s2 H; simpl;
    [reflexivity|].
  replace (existsb (Text.eqb k) s2) with (existsb (Text.eqb k) s1)
    by (apply eq_true_iff_eq; now rewrite !seen_in).
  destruct (existsb (Text.eqb k) s1); [now apply IH|].
  f_equal. apply IH. intros x. simpl. now rewrite H.
Qed.

Lemma first_seen_app seen a b :
  first_seen seen (a ++ b)
  = first_seen seen a ++ first_seen (seen ++ first_seen seen a) b.
Proof.
  revert seen. induction a as [|k r IH]; intros seen; simpl.
  - now rewrite app_nil_r.
  - destruct (existsb (Text.eqb k) seen); [apply IH|].
    simpl. f_equal. rewrite IH. f_equal. apply first_seen_same.
    intros x. simpl. rewrite !in_app_iff. simpl. tauto.
Qed.

Lemma first_seen_nodup seen ks :
  NoDup ks -> (forall k, In k ks -> ~ In k seen) -> first_seen seen ks = ks.
Proof.
  revert seen. induction ks as [|k r IH]; intros seen N H; simpl;
    [reflexivity|].
  inversion N as [|? ? Nk Nr]; subst.
  replace (existsb (Text.eqb k) seen) with false.
  - f_equal. apply IH; [assumption|].
    intros x I [E|S]; [subst; tauto|]. apply (H x); simpl; auto.
  - symmetry. apply not_true_is_false. rewrite seen_in. apply H. now left.
Qed.

(** A loop that puts one key per item into the map lists the keys in the
    order in which they first appear. *)
Lemma keys_fold {X} (step : CourseMap -> X -> CourseMap) (key_of : X -> text) :
  (forall d x,
     keys (step d x) = if mem (key_of x) d then keys d
                       else keys d ++ [key_of x]) ->
  forall xs d,
    keys (fold_left step xs d)
    = keys d ++ first_seen (keys d) (map key_of xs).
Proof.
  intros Step xs. induction xs as [|x r IH]; intros d; simpl.
  - now rewrite app_nil_r.
  - rewrite IH, Step, seen_mem. destruct (mem (key_of x) d); [reflexivity|].
    rewrite <- app_assoc. simpl. do 2 f_equal. apply first_seen_same.
    intros k. rewrite in_app_iff. simpl. tauto.
Qed.

Lemma keys_merge_course d course :
  keys (merge_course d course)
  = if mem (sis_key course) d then keys d else keys d ++ [sis_key course].
Proof.
  unfold merge_course. fold (sis_key course).
  rewrite (proj1 (sections_fold _ _ _)).
  destruct (mem (sis_key course) d) eqn:M; [reflexivity|].
  now rewrite keys_set, M.
Qed.

(** X15. The courses of the output are the values of the map in the order
    of its keys, and the keys come in the order in which they first
    appear, the catalog first and the scheduling source after it: all
    catalog entries in the order of the catalog, then the courses that
    only the scheduling source has. *)
Theorem output_in_order_of_first_appearance catalog schools :
  let d := courses_by_key catalog schools in
  output_courses catalog schools = map snd d
  /\ keys d = first_seen [] (map fst catalog ++ sis_keys schools)
  /\ (NoDup (map fst catalog) ->
      keys d = map fst catalog
                 ++ first_seen (map fst catalog) (sis_keys schools)).
Proof.
  intros d. split; [reflexivity|].
  assert (K : keys d
              = first_seen [] (map fst catalog)
                  ++ first_seen ([] ++ first_seen [] (map fst catalog))
                       (sis_keys schools)).
  { unfold d, courses_by_key, seed. rewrite merge_schools_flat.
    rewrite (keys_fold merge_course sis_key keys_merge_course).
    rewrite (keys_fold seed_one fst).
    - reflexivity.
    - intros d0 [k item]. simpl. apply keys_set. }
  split.
  - now rewrite first_seen_app.
  - intros N. rewrite K. rewrite first_seen_nodup; auto.
Qed.

Lemma output_in_order_of_first_appearance_witness :
  keys (courses_by_key
          [(lit "MATH-1010",
            {| ci_subj := None; ci_crse := None; ci_name := None;
               ci_description := None |})]
          [{| sch_courses :=
                Some [{| sc_subj := Some (lit "CSCI");
                         sc_crse := Some (lit "2300");
                         sc_name := None; sc_sections := None |};
                      {| sc_subj := Some (lit "MATH");
                         sc_crse := Some (lit "1010");
                         sc_name := None; sc_sections := None |}] |}])
  = [lit "MATH-1010"; lit "CSCI-2300"].
Proof.
  refine (proj2 (proj2 (output_in_order_of_first_appearance _ _)) _).
  repeat constructor. simpl. tauto.
Defined.

End OutputOrder.

(** ** Month names, in full *)

Section MonthLookup.

Lemma title_from_length b s : List.length (title_from b s) = List.length s.
Proof.
  revert b. induction s as [|c r IH]; intros b; simpl; [reflexivity|].
  now rewrite IH.
Qed.

Lemma title_from_firstn n b s :
  firstn n (title_from b s) = title_from b (firstn n s).
Proof.
  revert b s. induction n as [|n IH]; intros b [|c r]; simpl;
    try reflexivity.
  now rewrite IH.
Qed.

Lemma dict_get_entry table key n :
  dict_get table key = Some n -> In (key, n) table.
Proof.
  induction table as [|[k v] r IH]; simpl; [discriminate|].
  destruct (Text.eqb k key) eqn:E.
  - apply eqb_eq in E. intros H; injection H as <-. subst. now left.
  - intros H. right. now apply IH.
Qed.

Lemma dict_get_abbreviation key :
  List.length key = 3%nat ->
  dict_get abbreviations key = dict_get MONTHS key.
Proof.
  intros L. unfold abbreviations.
  induction MONTHS as [|[k v] r IH]; simpl; [reflexivity|].
  destruct (Nat.eqb_spec (List.length k) 3) as [E|E]; simpl.
  - now rewrite IH.
  - rewrite IH. destruct (Text.eqb k key) eqn:K; [|reflexivity].
    apply eqb_eq in K. subst. contradiction.
Qed.

(** Every name of [MONTHS] has three letters or more, and its first three
    letters are a name for the same month. *)
Lemma months_by_prefix key n :
  In (key, n) MONTHS ->
  (3 <= List.length key)%nat /\ dict_get MONTHS (firstn 3 key) = Some n.
Proof.
  intros H.
  assert (Hall : forallb
            (fun kv =>
               (3 <=? List.length (fst kv))%nat
               && match dict_get MONTHS (firstn 3 (fst kv)) with
                  | Some m => m =? snd kv
                  | None => false
                  end) MONTHS = true) by (vm_compute; reflexivity).
  rewrite forallb_forall in Hall. specialize (Hall _ H).
  cbn [fst snd] in Hall. apply andb_prop in Hall as [L G].
  apply Nat.leb_le in L. split; [assumption|].
  destruct (dict_get MONTHS (firstn 3 key)); [|discriminate].
  f_equal. lia.
Qed.

(** X16. [parse_month_name_to_num] reads only the first three characters
    of the stripped name: the result is the month whose three-letter
    abbreviation they are in title case, if any.  The second look-up, of
    the whole name, never finds anything more, and a name under three
    characters is never a month. *)
Theorem month_by_first_three s :
  parse_month_name_to_num s
  = if (3 <=? List.length (strip s))%nat
    then dict_get abbreviations (Text.title (firstn 3 (strip s)))
    else None.
Proof.
  unfold parse_month_name_to_num. set (t := strip s).
  destruct (3 <=? List.length t)%nat eqn:L.
  - apply Nat.leb_le in L.
    destruct t as [|c r] eqn:T; [simpl in L; lia|]. rewrite <- T in *.
    clear T c r.
    rewrite dict_get_abbreviation.
    2:{ unfold Text.title. rewrite title_from_length, length_firstn. lia. }
    destruct (dict_get MONTHS (Text.title (firstn 3 t))) eqn:G;
      [reflexivity|].
    destruct (dict_get MONTHS (Text.title t)) as [n|] eqn:F; [|reflexivity].
    apply dict_get_entry, months_by_prefix in F as [_ F].
    unfold Text.title in *. rewrite title_from_firstn in F. congruence.
  - apply Nat.leb_gt in L.
    destruct t as [|c r] eqn:T; [reflexivity|]. rewrite <- T in *.
    clear T c r.
    destruct (dict_get MONTHS (Text.title t)) as [n|] eqn:F; [|reflexivity].
    apply dict_get_entry, months_by_prefix in F as [F _].
    unfold Text.title in F. rewrite title_from_length in F. lia.
Qed.

End MonthLookup.

(** ** The errors of the date parser *)

Section ParseErrors.

Lemma two_dates_raise y1 m1 d1 y2 m2 d2 (k : option Z) e :
  (a <- mk_date y1 m1 d1 ;; b <- mk_date y2 m2 d2 ;; Ok (a, b, k)) = Raise e ->
  e = DateOutOfRange.
Proof.
  unfold mk_date.
  destruct (valid_date y1 m1 d1); simpl; [|congruence].
  destruct (valid_date y2 m2 d2); simpl; [discriminate | congruence].
Qed.

Ltac unpack :=
  repeat match goal with
    | H : _ /\ _ |- _ => destruct H
    | H : exists _, _ |- _ => destruct H
    | H : _ \/ _ |- _ => destruct H
    end.

Ltac error_cases :=
  split; [|split];
  (split; intros H;
   [ try (apply two_dates_raise in H); try discriminate H;
     solve [ repeat split; auto
           | do 2 eexists; split; [reflexivity | assumption]
           | left; do 4 eexists; split; [reflexivity | tauto]
           | right; do 3 eexists; split; [reflexivity | assumption] ]
   | unpack; congruence ]).

(** X17. Which error [parse_date_cell] raises.  It is the parse error
    exactly when the cell has none of the three forms and is not a day
    number read with a current month; the month error of a single date
    exactly when the cell is a single date whose month name is unknown;
    the month error of a range exactly when the cell is a range with an
    unknown month name.  Any other failure comes from [date], on a day
    the month does not have or a year out of range. *)
Theorem parse_date_cell_errors cell cm fy sy :
  let s := normalize_ws cell in
  (parse_date_cell cell cm fy sy = Raise CouldNotParse <->
     DATE_RANGE_CROSS_MON_RE s = None /\ DATE_RANGE_SAME_MON_RE s = None
     /\ DATE_SINGLE_RE s = None
     /\ (cm = None \/ is_day_number s = false))
  /\ (parse_date_cell cell cm fy sy = Raise UnrecognizedMonth <->
        exists mons d,
          DATE_SINGLE_RE s = Some (mons, d)
          /\ parse_month_name_to_num mons = None)
  /\ (parse_date_cell cell cm fy sy = Raise UnrecognizedMonthInRange <->
        (exists m1s d1 m2s d2,
           DATE_RANGE_CROSS_MON_RE s = Some (m1s, d1, m2s, d2)
           /\ (parse_month_name_to_num m1s = None
               \/ parse_month_name_to_num m2s = None))
        \/ (exists mons d1 d2,
              DATE_RANGE_SAME_MON_RE s = Some (mons, d1, d2)
              /\ parse_month_name_to_num mons = None)).
Proof.
  intros s. unfold parse_date_cell. fold s.
  destruct (DATE_RANGE_CROSS_MON_RE s) as [[[[m1s d1] m2s] d2]|] eqn:C.
  - assert (Sa : DATE_RANGE_SAME_MON_RE s = None).
    { destruct (DATE_RANGE_SAME_MON_RE s) as [g|] eqn:Sa; [|reflexivity].
      apply same_not_cross in Sa. congruence. }
    assert (Si : DATE_SINGLE_RE s = None).
    { destruct (DATE_SINGLE_RE s) as [g|] eqn:Si; [|reflexivity].
      apply single_not_range in Si as [Si _]. congruence. }
    rewrite Sa, Si.
    destruct (parse_month_name_to_num m1s) as [m1|] eqn:P1;
      [destruct (parse_month_name_to_num m2s) as [m2|] eqn:P2|];
      [rewrite (month_nonzero _ _ P1), (month_nonzero _ _ P2); cbn [orb]| |];
      error_cases.
  - destruct (DATE_RANGE_SAME_MON_RE s) as [[[mons d1] d2]|] eqn:Sa.
    + assert (Si : DATE_SINGLE_RE s = None).
      { destruct (DATE_SINGLE_RE s) as [g|] eqn:Si; [|reflexivity].
        apply single_not_range in Si as [_ Si]. congruence. }
      rewrite Si.
      destruct (parse_month_name_to_num mons) as [mon|] eqn:P;
        [rewrite (month_nonzero _ _ P)|]; error_cases.
    + destruct (DATE_SINGLE_RE s) as [[mons d]|] eqn:Si.
      * destruct (parse_month_name_to_num mons) as [mon|] eqn:P;
          [rewrite (month_nonzero _ _ P)|]; error_cases.
      * destruct cm as [c|]; [destruct (is_day_number s) eqn:D|];
          error_cases.
Qed.

Lemma parse_date_cell_errors_witness :
  parse_date_cell (lit "Smarch 3") None 2025 2026 = Raise UnrecognizedMonth.
Proof.
  apply (parse_date_cell_errors (lit "Smarch 3") None 2025 2026).
  exists (lit "Smarch"), (lit "3"). split; reflexivity.
Defined.

End ParseErrors.
